(** * Node classification with GraphSage: a shallow embedding

    The development follows [basic_tasks/Node_classification.ipynb]:
    the [GraphSAGEModel] stack of [SAGEConv] layers, the
    [NodeClassification] head with its cross-entropy loss, the
    [NCEvaluate] accuracy function and the training loop.

    Tensors of floats are modelled as lists of real numbers, Python
    exceptions as an error result, and the mutable objects of the
    notebook (the module with its parameters and mode flags, the
    optimizer, the global random state, the console) as one explicit
    state that the operations pass along. *)

From Stdlib Require Import Reals Lra Lia ZArith List Bool Arith.
From Stdlib Require Import Sorted.
Import ListNotations.

Local Open Scope R_scope.

(** ** Exceptions and results *)

(** The failures the notebook can run into.  [ShapeMismatch] and
    [OutOfRange] are raised by the tensor and graph libraries,
    [ZeroDivisionError] by Python's own [/]. *)
Inductive exn : Type :=
| ShapeMismatch
| OutOfRange
| ZeroDivisionError.

Inductive result (A : Type) : Type :=
| Ok (a : A)
| Raise (e : exn).

Arguments Ok {A} a.
Arguments Raise {A} e.

Definition is_ok {A} (r : result A) : bool :=
  match r with Ok _ => true | Raise _ => false end.

Definition rbind {A B} (r : result A) (k : A -> result B) : result B :=
  match r with
  | Ok a => k a
  | Raise e => Raise e
  end.

Fixpoint rmap {A B} (f : A -> result B) (xs : list A) : result (list B) :=
  match xs with
  | [] => Ok []
  | x :: xs' =>
      rbind (f x) (fun y => rbind (rmap f xs') (fun ys => Ok (y :: ys)))
  end.

(** ** A state and error monad

    A statement of the notebook runs in a state [St]; it either
    yields a value or raises, and in both cases the state it has
    written so far stays written. *)
Module Mon.
Section Def.
Context {St : Type}.

Definition M (A : Type) : Type := St -> result A * St.

Definition ret {A} (a : A) : M A := fun s => (Ok a, s).

Definition bind {A B} (m : M A) (k : A -> M B) : M B :=
  fun s =>
    match m s with
    | (Ok a, s') => k a s'
    | (Raise e, s') => (Raise e, s')
    end.

Definition lift {A} (r : result A) : M A := fun s => (r, s).

Definition gets {A} (f : St -> A) : M A := fun s => (Ok (f s), s).

Definition modify (f : St -> St) : M unit := fun s => (Ok tt, f s).

(** [for x in xs: body x] *)
Fixpoint for_each {A} (xs : list A) (body : A -> M unit) : M unit :=
  match xs with
  | [] => ret tt
  | x :: xs' => bind (body x) (fun _ => for_each xs' body)
  end.
End Def.
Arguments M : clear implicits.
End Mon.

Declare Scope mon_scope.
Delimit Scope mon_scope with mon.
Notation "x <- m ;; k" := (Mon.bind m (fun x => k))
  (at level 61, m at next level, right associativity) : mon_scope.
Notation "m ;;; k" := (Mon.bind m (fun _ => k))
  (at level 61, right associativity) : mon_scope.

(** ** Tensors *)

Definition vector : Type := list R.
Definition matrix : Type := list vector.

Definition Rsum (x : vector) : R := fold_right Rplus 0 x.

Definition vzeros (d : nat) : vector := repeat 0 d.

Fixpoint vadd (x y : vector) : vector :=
  match x, y with
  | a :: x', b :: y' => (a + b) :: vadd x' y'
  | _, _ => []
  end.

Definition vscale (c : R) (x : vector) : vector := map (Rmult c) x.

Fixpoint dot (x y : vector) : R :=
  match x, y with
  | a :: x', b :: y' => a * b + dot x' y'
  | _, _ => 0
  end.

Definition vsum (d : nat) (xs : list vector) : vector :=
  fold_right vadd (vzeros d) xs.

(** Modelled from the spec: tensor indexing [X[idx]] belongs to the
    tensor library.  The rows of [X] at the positions [idx], in that
    order; an index outside the valid bounds is out of range. *)
Definition index_select {A} (X : list A) (idx : list nat) : result (list A) :=
  rmap (fun i => match nth_error X i with
                 | Some x => Ok x
                 | None => Raise OutOfRange
                 end) idx.

(** ** The graph *)

(** A [DGLGraph]: the number of nodes and the directed edges
    [(source, destination)]. *)
Record DGLGraph : Type := {
  number_of_nodes : nat;
  edges : list (nat * nat)
}.

Definition in_neighbors (g : DGLGraph) (v : nat) : list nat :=
  map fst (filter (fun e => Nat.eqb (snd e) v) (edges g)).

Definition in_degree (g : DGLGraph) (v : nat) : nat :=
  length (in_neighbors g v).

(** ** Linear maps and the parameters of a layer *)

(** The parameters of an [nn.Linear]: [weight] has one row per output
    feature. *)
Record Linear : Type := {
  weight : matrix;
  bias : vector
}.

(** Modelled from the spec: the learned linear transform of the
    tensor library, the weight matrix applied to the row plus the bias. *)
Definition Linear_forward (fc : Linear) (x : vector) : vector :=
  vadd (map (fun w => dot w x) (weight fc)) (bias fc).

(** The aggregation policies of the Aggregation Layer. *)
Inductive aggregator : Type :=
| agg_mean
| agg_sum
| agg_gcn.

(** One [SAGEConv] layer, with the arguments it was constructed from,
    its learnable parameters and the [training] flag of the module. *)
Record SAGEConv : Type := {
  in_feats : nat;
  out_feats : nat;
  aggre_type : aggregator;
  feat_drop : R;
  activation : option (R -> R);
  fc_self : option Linear;
  fc_neigh : Linear;
  training : bool
}.

(** ** The external collaborators

    The random generator behind dropout and parameter initialisation,
    reverse-mode differentiation and the Adam update are not part of
    the notebook; they are taken as an interface. *)
Class Backend : Type := {
  rng : Type;
  (** one Bernoulli draw with the given success probability *)
  bernoulli : R -> rng -> bool * rng;
  (** the initial weight and bias of an [nn.Linear] with the given
      numbers of input and output features *)
  reset_parameters : nat -> nat -> rng -> Linear * rng;
  (** the state of the optimizer (step count and moment estimates) *)
  opt_state : Type;
  Adam_init : R -> R -> list Linear -> opt_state;
  (** one Adam update of the parameters from their gradients *)
  Adam_step : opt_state -> list Linear -> list Linear -> list Linear * opt_state;
  (** gradients of the training loss with respect to the parameters *)
  autograd : (list Linear -> result R) -> list Linear -> list Linear
}.

(** ** The Aggregation Layer ([SAGEConv]) *)

(** Modelled from the spec: the body of the library layer [SAGEConv]
    is not part of the notebook.  For every node the layer aggregates
    the embeddings of the direct neighbours (mean, sum, or the
    "gcn"-style mean that folds the node's own embedding into the
    neighbour set before averaging), combines the aggregate with the
    node's own embedding, applies the learned linear transform plus
    bias and then the optional nonlinearity.  An isolated node uses a
    zero aggregate. *)
Definition reduce_neighbors (agg : aggregator) (d : nat) (msgs : list vector) : vector :=
  match agg with
  | agg_mean =>
      match msgs with
      | [] => vzeros d
      | _ :: _ => vscale (/ INR (length msgs)) (vsum d msgs)
      end
  | agg_sum | agg_gcn => vsum d msgs
  end.

(** Modelled from the spec: the neighbour aggregate of node [v] in the
    library layer.  The embeddings of the in-neighbours are looked up
    in the table [h] and reduced. *)
Definition neighbor_aggregate (layer : SAGEConv) (g : DGLGraph) (h : matrix) (v : nat)
  : result vector :=
  rbind (index_select h (in_neighbors g v))
        (fun msgs => Ok (reduce_neighbors (aggre_type layer) (in_feats layer) msgs)).

(** Modelled from the spec: the self-combination step of the library
    layer and its linear transform.  The "gcn" policy averages the
    node's own embedding with those of its neighbours; the other
    policies add the transformed own embedding to the transformed
    aggregate. *)
Definition combine_self (layer : SAGEConv) (deg : nat) (h_self h_neigh : vector) : vector :=
  match aggre_type layer, fc_self layer with
  | agg_gcn, _ =>
      Linear_forward (fc_neigh layer)
        (vscale (/ (INR deg + 1)) (vadd h_neigh h_self))
  | _, Some fc =>
      vadd (Linear_forward fc h_self) (Linear_forward (fc_neigh layer) h_neigh)
  | _, None => Linear_forward (fc_neigh layer) h_neigh
  end.

(** Modelled from the spec: the optional nonlinearity of the library
    layer, applied entry by entry. *)
Definition apply_activation (act : option (R -> R)) (x : vector) : vector :=
  match act with
  | Some f => map f x
  | None => x
  end.

(** Modelled from the spec: what the library layer computes for one
    node; a node without a row in the table is out of range. *)
Definition node_update (layer : SAGEConv) (g : DGLGraph) (h : matrix) (v : nat)
  : result vector :=
  match nth_error h v with
  | None => Raise OutOfRange
  | Some h_self =>
      rbind (neighbor_aggregate layer g h v) (fun h_neigh =>
      Ok (apply_activation (activation layer)
            (combine_self layer (in_degree g v) h_self h_neigh)))
  end.

(** Modelled from the spec: the shape test of the library layer.  The
    input table must have one row per node, each of the width the
    layer was configured with. *)
Definition check_shape (layer : SAGEConv) (g : DGLGraph) (h : matrix) : bool :=
  Nat.eqb (length h) (number_of_nodes g)
  && forallb (fun row => Nat.eqb (length row) (in_feats layer)) h.

(** Modelled from the spec: the library layer on a table, after
    dropout; a table of the wrong shape is a shape mismatch. *)
Definition SAGEConv_apply (layer : SAGEConv) (g : DGLGraph) (h : matrix) : result matrix :=
  if check_shape layer g h
  then rmap (node_update layer g h) (seq 0 (number_of_nodes g))
  else Raise ShapeMismatch.

(** The layer with its [training] flag set, as [train()] and [eval()]
    do for every submodule. *)
Definition set_training (mode : bool) (layer : SAGEConv) : SAGEConv :=
  {| in_feats := in_feats layer;
     out_feats := out_feats layer;
     aggre_type := aggre_type layer;
     feat_drop := feat_drop layer;
     activation := activation layer;
     fc_self := fc_self layer;
     fc_neigh := fc_neigh layer;
     training := mode |}.

(** The learnable parameters of a layer, in registration order. *)
Definition layer_parameters (layer : SAGEConv) : list Linear :=
  match fc_self layer with
  | Some fc => [fc; fc_neigh layer]
  | None => [fc_neigh layer]
  end.

(** Writes parameter values back into a layer; the values left over
    are returned for the layers that follow. *)
Definition load_layer (layer : SAGEConv) (ps : list Linear) : SAGEConv * list Linear :=
  match fc_self layer, ps with
  | Some _, fs :: fn :: rest =>
      ({| in_feats := in_feats layer;
          out_feats := out_feats layer;
          aggre_type := aggre_type layer;
          feat_drop := feat_drop layer;
          activation := activation layer;
          fc_self := Some fs;
          fc_neigh := fn;
          training := training layer |}, rest)
  | None, fn :: rest =>
      ({| in_feats := in_feats layer;
          out_feats := out_feats layer;
          aggre_type := aggre_type layer;
          feat_drop := feat_drop layer;
          activation := activation layer;
          fc_self := None;
          fc_neigh := fn;
          training := training layer |}, rest)
  | _, _ => (layer, ps)
  end.

(** ** The Embedding Stack ([GraphSAGEModel]) *)

Record GraphSAGEModel : Type := {
  layers : list SAGEConv
}.

Section WithBackend.
Context `{B : Backend}.

(** Modelled from the spec: the dropout mask of the tensor library on
    the input features.  During training every entry is zeroed with
    probability [p] and the survivors are rescaled. *)
Fixpoint dropout_vector (p : R) (x : vector) (s : rng) : vector * rng :=
  match x with
  | [] => ([], s)
  | a :: x' =>
      let (keep, s1) := bernoulli (1 - p) s in
      let (y, s2) := dropout_vector p x' s1 in
      ((if keep then a / (1 - p) else 0) :: y, s2)
  end.

(** Modelled from the spec: the dropout mask on a whole table, drawn
    row after row from the global random state. *)
Fixpoint dropout_matrix (p : R) (X : matrix) (s : rng) : matrix * rng :=
  match X with
  | [] => ([], s)
  | x :: X' =>
      let (y, s1) := dropout_vector p x s in
      let (Y, s2) := dropout_matrix p X' s1 in
      (y :: Y, s2)
  end.

(** Modelled from the spec: [self.feat_drop(feat)] of a library module
    in the given mode; dropout is disabled at evaluation time. *)
Definition Dropout_forward (p : R) (mode : bool) (X : matrix) (s : rng) : matrix * rng :=
  if mode then dropout_matrix p X s else (X, s).

(** Modelled from the spec: [layer(g, h)] for a library layer, dropout
    on the input features followed by aggregation. *)
Definition SAGEConv_forward (layer : SAGEConv) (g : DGLGraph) (feat : matrix)
  : Mon.M rng matrix :=
  fun s =>
    let (h, s') := Dropout_forward (feat_drop layer) (training layer) feat s in
    (SAGEConv_apply layer g h, s').

(** Modelled from the spec: the library constructor
    [dgl_conv.SAGEConv(in_feats, out_feats, aggregator_type,
    feat_drop=..., activation=...)].  It keeps its arguments and
    initialises the weights; a fresh module is in training mode. *)
Definition SAGEConv_init (in_feats out_feats : nat) (aggregator_type : aggregator)
  (feat_drop : R) (activation : option (R -> R)) (s : rng) : SAGEConv * rng :=
  match aggregator_type with
  | agg_gcn =>
      let (fn, s1) := reset_parameters in_feats out_feats s in
      (Build_SAGEConv in_feats out_feats aggregator_type feat_drop activation
         None fn true, s1)
  | _ =>
      let (fs, s1) := reset_parameters in_feats out_feats s in
      let (fn, s2) := reset_parameters in_feats out_feats s1 in
      (Build_SAGEConv in_feats out_feats aggregator_type feat_drop activation
         (Some fs) fn true, s2)
  end.

(** The loop [for i in range(n_layers - 1)] of the constructor, as a
    recursion on the number of iterations left. *)
Fixpoint hidden_layers (k : nat) (n_hidden : nat) (aggregator_type : aggregator)
  (dropout : R) (activation : option (R -> R)) (s : rng) : list SAGEConv * rng :=
  match k with
  | O => ([], s)
  | S k' =>
      let (l, s1) := SAGEConv_init n_hidden n_hidden aggregator_type dropout activation s in
      let (ls, s2) := hidden_layers k' n_hidden aggregator_type dropout activation s1 in
      (l :: ls, s2)
  end.

(** [GraphSAGEModel.__init__] *)
Definition GraphSAGEModel_init (in_feats n_hidden out_dim : nat) (n_layers : Z)
  (activation : option (R -> R)) (dropout : R) (aggregator_type : aggregator)
  (s : rng) : GraphSAGEModel * rng :=
  (* input layer *)
  let (l_in, s1) :=
    SAGEConv_init in_feats n_hidden aggregator_type dropout activation s in
  (* hidden layers *)
  let (l_hid, s2) :=
    hidden_layers (Z.to_nat (n_layers - 1)) n_hidden aggregator_type dropout activation s1 in
  (* output layer *)
  let (l_out, s3) :=
    SAGEConv_init n_hidden out_dim aggregator_type dropout None s2 in
  ({| layers := (l_in :: l_hid) ++ [l_out] |}, s3).

Fixpoint forward_layers (ls : list SAGEConv) (g : DGLGraph) (h : matrix)
  : Mon.M rng matrix :=
  match ls with
  | [] => Mon.ret h
  | layer :: ls' =>
      (h' <- SAGEConv_forward layer g h ;; forward_layers ls' g h')%mon
  end.

(** [GraphSAGEModel.forward] *)
Definition GraphSAGEModel_forward (self : GraphSAGEModel) (g : DGLGraph) (features : matrix)
  : Mon.M rng matrix :=
  forward_layers (layers self) g features.

Definition GraphSAGEModel_set_training (mode : bool) (self : GraphSAGEModel) : GraphSAGEModel :=
  {| layers := map (set_training mode) (layers self) |}.

End WithBackend.

(** ** The Classification Head *)

(** The largest entry of a row. *)
Definition vmax (x : vector) : R := fold_right Rmax (hd 0 x) x.

(** Modelled from the spec: the library loss [torch.nn.CrossEntropyLoss]
    is not part of the notebook.  It is the standard multi-class
    cross-entropy, numerically stabilised: the logarithm of the sum of
    exponentials is taken after the largest score has been subtracted. *)
Definition log_sum_exp (x : vector) : R :=
  let m := vmax x in
  m + ln (Rsum (map (fun c => exp (c - m)) x)).

(** Modelled from the spec: the loss of one node, [-score[label] +
    log(sum_c exp(score[c]))]; a label outside [0, C) is out of range. *)
Definition cross_entropy_row (x : vector) (target : Z) : result R :=
  if ((0 <=? target)%Z && (target <? Z.of_nat (length x))%Z)%bool
  then Ok (- nth (Z.to_nat target) x 0 + log_sum_exp x)
  else Raise OutOfRange.

(** Modelled from the spec: [torch.nn.CrossEntropyLoss()] with its
    default reduction, the mean of the per-node losses over the batch.
    On a batch without rows the mean is a quotient by zero, to which
    the real numbers give no meaning (the library yields a non-number
    there); nothing below is stated about that value. *)
Definition CrossEntropyLoss (input : matrix) (target : list Z) : result R :=
  if Nat.eqb (length input) (length target)
  then rbind (rmap (fun p => cross_entropy_row (fst p) (snd p)) (combine input target))
         (fun losses => Ok (Rsum losses / INR (length losses)))
  else Raise ShapeMismatch.

Record NodeClassification : Type := {
  gconv_model : GraphSAGEModel;
  loss_fcn : matrix -> list Z -> result R
}.

(** [NodeClassification.__init__]; the arguments [n_hidden] and
    [n_classes] are not used by the notebook either. *)
Definition NodeClassification_init (gconv_model : GraphSAGEModel) (n_hidden n_classes : nat)
  : NodeClassification :=
  {| gconv_model := gconv_model; loss_fcn := CrossEntropyLoss |}.

(** [model.parameters()] *)
Definition parameters (self : NodeClassification) : list Linear :=
  flat_map layer_parameters (layers (gconv_model self)).

Fixpoint load_layers (ls : list SAGEConv) (ps : list Linear) : list SAGEConv :=
  match ls with
  | [] => []
  | l :: ls' => let (l', rest) := load_layer l ps in l' :: load_layers ls' rest
  end.

(** The module with the parameter values [ps] written into it. *)
Definition load_parameters (self : NodeClassification) (ps : list Linear) : NodeClassification :=
  {| gconv_model := {| layers := load_layers (layers (gconv_model self)) ps |};
     loss_fcn := loss_fcn self |}.

(** ** The Evaluator: arg-max and counting *)

(** Modelled from the spec: the library function [torch.max(_, dim=1)]
    is not part of the notebook.  One pass over a row that keeps the
    largest score seen so far and its position; a later score replaces
    it only when strictly larger, so that ties go to the lowest class
    index. *)
Fixpoint max_from (best : R) (best_i i : nat) (x : vector) : R * nat :=
  match x with
  | [] => (best, best_i)
  | a :: x' =>
      if Rlt_dec best a then max_from a i (S i) x'
      else max_from best best_i (S i) x'
  end.

(** Modelled from the spec: the maximum of one row and its position;
    a row without classes has no maximum. *)
Definition max_with_index (x : vector) : result (R * nat) :=
  match x with
  | [] => Raise ShapeMismatch
  | a :: x' => Ok (max_from a 0 1 x')
  end.

(** Modelled from the spec: [values, indices = torch.max(logits, dim=1)]. *)
Definition torch_max (X : matrix) : result (list R * list nat) :=
  rbind (rmap max_with_index X) (fun ps => Ok (map fst ps, map snd ps)).

Definition argmax (x : vector) : nat :=
  match max_with_index x with
  | Ok (_, i) => i
  | Raise _ => 0
  end.

(** [torch.sum(indices == test_labels)] *)
Definition count_equal (indices : list nat) (test_labels : list Z) : nat :=
  length (filter (fun p => Z.eqb (Z.of_nat (fst p)) (snd p)) (combine indices test_labels)).

(** Python's [x / n] on a float and an [int]. *)
Definition py_div (x : R) (n : nat) : result R :=
  match n with
  | O => Raise ZeroDivisionError
  | S _ => Ok (x / INR n)
  end.

(** ** The state of a run *)

(** What the training loop does, in the order it does it. *)
Inductive event : Type :=
| ev_forward (subset : list nat)     (* loss = model(g, features, subset) *)
| ev_zero_grad                        (* optimizer.zero_grad() *)
| ev_backward                         (* loss.backward() *)
| ev_step                             (* optimizer.step() *)
| ev_evaluate (subset : list nat).    (* NCEvaluate(model, g, features, labels, subset) *)

(** The lines the notebook prints. *)
Inductive line : Type :=
| line_epoch (epoch : nat) (loss acc : R)
| line_blank
| line_test (acc : R).

(** A loss tensor: its value and the gradients that [backward] will
    deliver. *)
Record loss_tensor : Type := {
  item : R;
  grad_fn : list Linear
}.

Definition Linear_add (a b : Linear) : Linear :=
  {| weight := map (fun p => vadd (fst p) (snd p)) (combine (weight a) (weight b));
     bias := vadd (bias a) (bias b) |}.

Definition Linear_zero (a : Linear) : Linear :=
  {| weight := map (fun row => vzeros (length row)) (weight a);
     bias := vzeros (length (bias a)) |}.

Section Run.
Context `{B : Backend}.

Record world : Type := {
  model : NodeClassification;       (* the module, its parameters and mode flags *)
  grad : option (list Linear);      (* the [.grad] fields of the parameters *)
  optimizer : opt_state;
  random : rng;                     (* the global random state *)
  stdout : list line;
  history : list event
}.

Definition set_model (m : NodeClassification) (w : world) : world :=
  {| model := m; grad := grad w; optimizer := optimizer w;
     random := random w; stdout := stdout w; history := history w |}.

Definition set_grad (gr : option (list Linear)) (w : world) : world :=
  {| model := model w; grad := gr; optimizer := optimizer w;
     random := random w; stdout := stdout w; history := history w |}.

Definition set_optimizer (o : opt_state) (w : world) : world :=
  {| model := model w; grad := grad w; optimizer := o;
     random := random w; stdout := stdout w; history := history w |}.

Definition set_random (s : rng) (w : world) : world :=
  {| model := model w; grad := grad w; optimizer := optimizer w;
     random := s; stdout := stdout w; history := history w |}.

Definition print (l : line) : Mon.M world unit :=
  Mon.modify (fun w =>
    {| model := model w; grad := grad w; optimizer := optimizer w;
       random := random w; stdout := stdout w ++ [l]; history := history w |}).

Definition record (e : event) : Mon.M world unit :=
  Mon.modify (fun w =>
    {| model := model w; grad := grad w; optimizer := optimizer w;
       random := random w; stdout := stdout w; history := history w ++ [e] |}).

(** Runs a computation that draws from the global random state. *)
Definition with_random {A} (m : Mon.M rng A) : Mon.M world A :=
  fun w => let (r, s) := m (random w) in (r, set_random s w).

(** [model.train()] and [model.eval()] *)
Definition set_mode (mode : bool) (self : NodeClassification) : NodeClassification :=
  {| gconv_model := GraphSAGEModel_set_training mode (gconv_model self);
     loss_fcn := loss_fcn self |}.

Definition model_train : Mon.M world unit :=
  Mon.modify (fun w => set_model (set_mode true (model w)) w).

Definition model_eval : Mon.M world unit :=
  Mon.modify (fun w => set_model (set_mode false (model w)) w).

(** [NodeClassification.forward]; [labels] is the global tensor of the
    notebook. *)
Definition NodeClassification_forward (self : NodeClassification) (labels : list Z)
  (g : DGLGraph) (features : matrix) (train_idx : list nat) : Mon.M rng R :=
  (logits <- GraphSAGEModel_forward (gconv_model self) g features ;;
   Mon.lift (rbind (index_select logits train_idx) (fun input =>
             rbind (index_select labels train_idx) (fun target =>
             loss_fcn self input target))))%mon.

(** [loss = model(g, features, train_idx)]: the value of the loss
    together with what automatic differentiation keeps for the
    backward pass (the loss as a function of the parameters, under the
    dropout masks of this very pass). *)
Definition model_call (labels : list Z) (g : DGLGraph) (features : matrix)
  (train_idx : list nat) : Mon.M world loss_tensor :=
  (record (ev_forward train_idx) ;;;
   self <- Mon.gets model ;;
   s0 <- Mon.gets random ;;
   v <- with_random (NodeClassification_forward self labels g features train_idx) ;;
   Mon.ret {| item := v;
              grad_fn := autograd
                (fun ps => fst (NodeClassification_forward (load_parameters self ps)
                                  labels g features train_idx s0))
                (parameters self) |})%mon.

(** [optimizer.zero_grad()] *)
Definition optimizer_zero_grad : Mon.M world unit :=
  (record ev_zero_grad ;;;
   Mon.modify (fun w => set_grad (option_map (map Linear_zero) (grad w)) w))%mon.

(** [loss.backward()]: gradients accumulate into the [.grad] fields. *)
Definition loss_backward (loss : loss_tensor) : Mon.M world unit :=
  (record ev_backward ;;;
   Mon.modify (fun w =>
     set_grad (Some (match grad w with
                     | None => grad_fn loss
                     | Some old => map (fun p => Linear_add (fst p) (snd p))
                                     (combine old (grad_fn loss))
                     end)) w))%mon.

(** [optimizer.step()]: parameters without gradient are left alone. *)
Definition optimizer_step : Mon.M world unit :=
  (record ev_step ;;;
   Mon.modify (fun w =>
     match grad w with
     | None => w
     | Some gr =>
         let (ps, o) := Adam_step (optimizer w) (parameters (model w)) gr in
         set_optimizer o (set_model (load_parameters (model w) ps) w)
     end))%mon.

(** [NCEvaluate(model, g, features, labels, test_idx)], on the module
    held by the state. *)
Definition NCEvaluate (g : DGLGraph) (features : matrix) (labels : list Z)
  (test_idx : list nat) : Mon.M world R :=
  (record (ev_evaluate test_idx) ;;;
   model_eval ;;;
   self <- Mon.gets model ;;
   (* compute embeddings with GNN *)
   logits <- with_random (GraphSAGEModel_forward (gconv_model self) g features) ;;
   logits <- Mon.lift (index_select logits test_idx) ;;
   test_labels <- Mon.lift (index_select labels test_idx) ;;
   vi <- Mon.lift (torch_max logits) ;;
   let correct := count_equal (snd vi) test_labels in
   Mon.lift (py_div (INR correct * 1) (length test_labels)))%mon.

(** One pass of the body of [for epoch in range(n_epochs)]. *)
Definition epoch_body (g : DGLGraph) (features : matrix) (labels : list Z)
  (train_idx val_idx : list nat) (epoch : nat) : Mon.M world unit :=
  ((* Set the model in the training mode. *)
   model_train ;;;
   (* forward *)
   loss <- model_call labels g features train_idx ;;
   (* backward *)
   optimizer_zero_grad ;;;
   loss_backward loss ;;;
   optimizer_step ;;;
   (* validation *)
   acc <- NCEvaluate g features labels val_idx ;;
   print (line_epoch epoch (item loss) acc))%mon.

(** The training loop and the final test of the last code cell. *)
Definition training_loop (g : DGLGraph) (features : matrix) (labels : list Z)
  (train_idx val_idx test_idx : list nat) (n_epochs : Z) : Mon.M world unit :=
  (Mon.for_each (seq 0 (Z.to_nat n_epochs))
     (epoch_body g features labels train_idx val_idx) ;;;
   print line_blank ;;;
   acc <- NCEvaluate g features labels test_idx ;;
   print (line_test acc))%mon.

(** The state in which the last cell enters its loop:
    [model = NodeClassification(gconv_model, n_hidden, n_classes)] and
    [optimizer = torch.optim.Adam(model.parameters(), lr=lr,
    weight_decay=weight_decay)]. *)
Definition initial_world (gconv_model : GraphSAGEModel) (n_hidden n_classes : nat)
  (lr weight_decay : R) (s : rng) : world :=
  let m := NodeClassification_init gconv_model n_hidden n_classes in
  {| model := m; grad := None;
     optimizer := Adam_init lr weight_decay (parameters m);
     random := s; stdout := []; history := [] |}.

End Run.

(** ** The notebook's configuration *)

Module Notebook.

(** [F.relu] *)
Definition relu (x : R) : R := Rmax 0 x.

(* Hyperparameters *)
Definition n_hidden : nat := 64.
Definition n_layers : Z := 2.
Definition dropout : R := 5 / 10.
Definition aggregator_type : aggregator := agg_gcn.

(* Training hyperparameters *)
Definition weight_decay : R := 5 / 10000.
Definition n_epochs : Z := 150.
Definition lr : R := 1 / 1000.

(** [gconv_model = GraphSAGEModel(in_feats, n_hidden, n_classes,
    n_layers, F.relu, dropout, aggregator_type)] *)
Definition gconv_model `{B : Backend} (in_feats n_classes : nat) (s : rng)
  : GraphSAGEModel * rng :=
  GraphSAGEModel_init in_feats n_hidden n_classes n_layers (Some relu) dropout
    aggregator_type s.

End Notebook.

(** ** The data split *)

(** [mask > 0] on an array of integers (a boolean mask holds 0 and 1). *)
Definition mask_positive (mask : list Z) : list bool :=
  map (fun m => (0 <? m)%Z) mask.

(** The scan behind [np.where]: the positions of the true entries of
    [b], counted from [i]. *)
Fixpoint where_from (i : nat) (b : list bool) : list nat :=
  match b with
  | [] => []
  | c :: b' => if c then i :: where_from (S i) b' else where_from (S i) b'
  end.

(** [np.where(b)[0]] *)
Definition np_where (b : list bool) : list nat := where_from 0 b.

(** [np.where(mask > 0)[0]], as the notebook computes [train_idx],
    [val_idx] and [test_idx] from the masks of the dataset. *)
Definition idx_of_mask (mask : list Z) : list nat :=
  np_where (mask_positive mask).

(** ** Vocabulary of the properties *)

(** Consecutive layers fit: what a layer puts out is as wide as what
    the next layer takes in. *)
Definition widths_compatible (ls : list SAGEConv) : Prop :=
  forall i a b,
    nth_error ls i = Some a -> nth_error ls (S i) = Some b ->
    out_feats a = in_feats b.

(** A small deterministic backend to run the definitions on: the
    random state is a counter, a Bernoulli draw succeeds on even
    counts, every weight starts at one and every bias at zero, the
    gradient is taken to be the parameters themselves and the
    optimizer subtracts nothing. *)
Definition test_backend : Backend := {|
  rng := nat;
  bernoulli := fun _ s => (Nat.even s, S s);
  reset_parameters := fun i o s =>
    ({| weight := repeat (repeat 1 i) o; bias := repeat 0 o |}, S s);
  opt_state := nat;
  Adam_init := fun _ _ _ => O;
  Adam_step := fun o ps _ => (ps, S o);
  autograd := fun _ ps => ps
|}.

(** The stack without its dropout: the layers applied one after the
    other to the table, as [forward] does when no layer is in training
    mode. *)
Fixpoint apply_layers (ls : list SAGEConv) (g : DGLGraph) (h : matrix) : result matrix :=
  match ls with
  | [] => Ok h
  | layer :: ls' => rbind (SAGEConv_apply layer g h) (apply_layers ls' g)
  end.

(** One node graph, for running single layers. *)
Definition single_node : DGLGraph := {| number_of_nodes := 1; edges := [] |}.

(** Two nodes citing each other. *)
Definition two_nodes : DGLGraph := {| number_of_nodes := 2; edges := [(0, 1); (1, 0)]%nat |}.

(** The accuracy [NCEvaluate] computes, as a function of the module:
    the stack runs without dropout, the rows of the subset are
    selected, and the matches of arg-max and label are counted. *)
Definition accuracy (self : NodeClassification) (g : DGLGraph) (features : matrix)
  (labels : list Z) (test_idx : list nat) : result R :=
  rbind (apply_layers (map (set_training false) (layers (gconv_model self))) g features)
    (fun logits =>
  rbind (index_select logits test_idx) (fun logits =>
  rbind (index_select labels test_idx) (fun test_labels =>
  rbind (torch_max logits) (fun vi =>
  py_div (INR (count_equal (snd vi) test_labels) * 1) (length test_labels))))).

(** The state [NCEvaluate] leaves behind: the module is in evaluation
    mode and the call is on record; nothing else has changed. *)
Definition after_evaluate `{B : Backend} (test_idx : list nat) (w : world) : world :=
  {| model := set_mode false (model w); grad := grad w; optimizer := optimizer w;
     random := random w; stdout := stdout w;
     history := history w ++ [ev_evaluate test_idx] |}.

(** A two-layer stack on one input feature and two classes, and a
    state around it, for running the definitions. *)
Definition toy_model : GraphSAGEModel :=
  fst (GraphSAGEModel_init (B := test_backend) 1 1 2 1 None (1 / 2) agg_gcn 0%nat).

Definition toy_features : matrix := [[1]; [2]].

Definition toy_labels : list Z := [0; 1]%Z.

Definition toy_world : world (B := test_backend) :=
  initial_world (B := test_backend) toy_model 1 2 (1 / 1000) (5 / 10000) 0%nat.

(** The scores of the toy stack in evaluation mode: both classes tie
    on both nodes. *)
Definition toy_scores : matrix := [[3 / 2; 3 / 2]; [3 / 2; 3 / 2]].

(** The result is not a [ZeroDivisionError]. *)
Definition no_zero_division {A} (r : result A) : Prop := r <> Raise ZeroDivisionError.




(** [within g k v u]: node [u] is within [k] hops of node [v], that
    is, [v] is reached from [u] along at most [k] edges. *)
Fixpoint within (g : DGLGraph) (k : nat) (v u : nat) : Prop :=
  match k with
  | O => u = v
  | S k' => within g k' v u \/ exists x, within g k' v x /\ In u (in_neighbors g x)
  end.

(** A directed chain of four nodes, [0 -> 1 -> 2 -> 3]. *)
Definition chain : DGLGraph :=
  {| number_of_nodes := 4; edges := [(0, 1); (1, 2); (2, 3)]%nat |}.

(** ** Tactics *)

(** Runs the model on concrete inputs, leaving the real arithmetic
    of the entries untouched. *)
Ltac run_model :=
  cbv - [Rplus Rmult Rminus Rinv Rdiv Ropp IZR exp ln Rmax Rlt_dec].

(** Splits an equation between tables into equations between entries. *)
Ltac by_entries :=
  repeat match goal with
         | |- Ok _ = Ok _ => apply f_equal
         | |- (_, _) = (_, _) => apply f_equal2
         | |- _ :: _ = _ :: _ => apply f_equal2
         | |- [] = [] => reflexivity
         end.

(** The rows of a table that a boolean mask marks, in their order. *)
Definition select_rows {A} (X : list A) (b : list bool) : list A :=
  map fst (filter snd (combine X b)).

(** The lines a run of epochs prints: one per epoch, numbered from
    [start], each with the loss and the accuracy of its epoch. *)
Fixpoint epoch_lines (start : nat) (vals : list (R * R)) : list line :=
  match vals with
  | [] => []
  | (l, a) :: vals' => line_epoch start l a :: epoch_lines (S start) vals'
  end.

(** The shape of a parameter tensor pair: the widths of the rows of the
    weight and the length of the bias. *)
Definition Linear_shape (a : Linear) : list nat * nat :=
  (map (@length R) (weight a), length (bias a)).

(** What of a layer is configuration rather than parameter. *)
Definition layer_config (l : SAGEConv)
  : nat * nat * aggregator * R * option (R -> R) * bool :=
  (in_feats l, out_feats l, aggre_type l, feat_drop l, activation l, training l).

(** A computation prints lines of the form [Q] when it does not raise. *)
Definition prints `{B : Backend} {A} (m : Mon.M world A) (Q : list line -> Prop) : Prop :=
  forall w : world,
    is_ok (fst (m w)) = true ->
    exists ls, stdout (snd (m w)) = stdout w ++ ls /\ Q ls.

(** What an optional activation does to one entry. *)
Definition act_fun (act : option (R -> R)) (x : R) : R :=
  match act with Some f => f x | None => x end.

(** The layer that the test backend makes of
    [SAGEConv(i, o, 'gcn', feat_drop=dropout, activation=act)], in
    evaluation mode: every weight is one and every bias zero. *)
Definition probe_layer (i o : nat) (act : option (R -> R)) : SAGEConv :=
  {| in_feats := i; out_feats := o; aggre_type := agg_gcn;
     feat_drop := Notebook.dropout; activation := act; fc_self := None;
     fc_neigh := {| weight := repeat (repeat 1 i) o; bias := repeat 0 o |};
     training := false |}.

(** The notebook's model on one input feature and one class, as the
    test backend initialises it, switched to evaluation mode. *)
Definition probe_model : GraphSAGEModel :=
  GraphSAGEModel_set_training false
    (fst (Notebook.gconv_model (B := test_backend) 1 1 0%nat)).

(** * Properties *)

(** ** Construction of the stack *)

Section Construction.
Context `{B : Backend}.

Lemma SAGEConv_init_fields i o agg p act s :
  let l := fst (SAGEConv_init i o agg p act s) in
  in_feats l = i /\ out_feats l = o /\ aggre_type l = agg /\
  feat_drop l = p /\ activation l = act /\ training l = true.
Proof.
  unfold SAGEConv_init.
  destruct agg; repeat (destruct (reset_parameters _ _ _)); cbn; auto 10.
Qed.

Lemma hidden_layers_length k h agg p act s :
  length (fst (hidden_layers k h agg p act s)) = k.
Proof.
  revert s. induction k as [|k IH]; intros s; cbn; [reflexivity|].
  destruct (SAGEConv_init h h agg p act s) as [l s1].
  specialize (IH s1).
  destruct (hidden_layers k h agg p act s1) as [ls s2]. cbn in *. now rewrite IH.
Qed.

Lemma hidden_layers_fields k h agg p act s :
  Forall (fun l => in_feats l = h /\ out_feats l = h /\ aggre_type l = agg /\
                   feat_drop l = p /\ activation l = act /\ training l = true)
         (fst (hidden_layers k h agg p act s)).
Proof.
  revert s. induction k as [|k IH]; intros s; cbn; [constructor|].
  pose proof (SAGEConv_init_fields h h agg p act s) as Hl.
  destruct (SAGEConv_init h h agg p act s) as [l s1].
  specialize (IH s1).
  destruct (hidden_layers k h agg p act s1) as [ls s2]. cbn in *.
  constructor; assumption.
Qed.

(** The layers the constructor appends, spelled out. *)
Lemma GraphSAGEModel_init_layers i h o n act p agg s :
  exists l_in l_hid l_out,
    layers (fst (GraphSAGEModel_init i h o n act p agg s)) = l_in :: l_hid ++ [l_out] /\
    (in_feats l_in = i /\ out_feats l_in = h /\ aggre_type l_in = agg /\
     feat_drop l_in = p /\ activation l_in = act /\ training l_in = true) /\
    length l_hid = Z.to_nat (n - 1) /\
    Forall (fun l => in_feats l = h /\ out_feats l = h /\ aggre_type l = agg /\
                     feat_drop l = p /\ activation l = act /\ training l = true) l_hid /\
    (in_feats l_out = h /\ out_feats l_out = o /\ aggre_type l_out = agg /\
     feat_drop l_out = p /\ activation l_out = None /\ training l_out = true).
Proof.
  unfold GraphSAGEModel_init.
  pose proof (SAGEConv_init_fields i h agg p act s) as Hin.
  destruct (SAGEConv_init i h agg p act s) as [l_in s1].
  pose proof (hidden_layers_length (Z.to_nat (n - 1)) h agg p act s1) as Hlen.
  pose proof (hidden_layers_fields (Z.to_nat (n - 1)) h agg p act s1) as Hhid.
  destruct (hidden_layers (Z.to_nat (n - 1)) h agg p act s1) as [l_hid s2].
  pose proof (SAGEConv_init_fields h o agg p None s2) as Hout.
  destruct (SAGEConv_init h o agg p None s2) as [l_out s3].
  cbn in *. exists l_in, l_hid, l_out. auto.
Qed.

End Construction.

Section ConstructionClaims.
Context `{B : Backend}.

(** C9.  The stack built by the constructor of [GraphSAGEModel] is
    width compatible: for every pair of consecutive layers the output
    width of the first is the input width of the second, the first
    layer takes [in_feats] columns and the last layer produces
    [out_dim] columns.  This holds for every configuration, so in
    particular for positive widths and a positive layer count. *)
Theorem GraphSAGEModel_init_widths
  (i h o : nat) (n : Z) (act : option (R -> R)) (p : R) (agg : aggregator) (s : rng) :
  let ls := layers (fst (GraphSAGEModel_init i h o n act p agg s)) in
  widths_compatible ls /\
  option_map in_feats (hd_error ls) = Some i /\
  option_map out_feats (nth_error ls (length ls - 1)) = Some o.
Proof.
  destruct (GraphSAGEModel_init_layers i h o n act p agg s)
    as (l_in & l_hid & l_out & -> & Hin & Hlen & Hhid & Hout).
  cbv zeta. split; [|split].
  - intros k a b Ha Hb.
    assert (Hb' : in_feats b = h).
    { cbn in Hb. apply nth_error_In in Hb. apply in_app_or in Hb.
      destruct Hb as [Hb|[<-|[]]]; [|tauto].
      rewrite Forall_forall in Hhid. now apply Hhid. }
    assert (Hk : (k < length (l_in :: l_hid))%nat).
    { assert (S k < length (l_in :: l_hid ++ [l_out]))%nat
        by (apply nth_error_Some; congruence).
      cbn in *. rewrite length_app in *. cbn in *. lia. }
    change (l_in :: l_hid ++ [l_out]) with ((l_in :: l_hid) ++ [l_out]) in Ha.
    rewrite nth_error_app1 in Ha by exact Hk.
    apply nth_error_In in Ha. destruct Ha as [<-|Ha].
    + destruct Hin as (_ & -> & _). now rewrite Hb'.
    + rewrite Forall_forall in Hhid. destruct (Hhid _ Ha) as (_ & -> & _).
      now rewrite Hb'.
  - cbn. now destruct Hin as (-> & _).
  - change (l_in :: l_hid ++ [l_out]) with ((l_in :: l_hid) ++ [l_out]).
    rewrite length_app. cbn [length].
    replace (S (length l_hid) + 1 - 1)%nat with (length (l_in :: l_hid) + 0)%nat
      by (cbn; lia).
    rewrite nth_error_app2 by lia.
    replace (length (l_in :: l_hid) + 0 - length (l_in :: l_hid))%nat with 0%nat by lia.
    cbn. now destruct Hout as (_ & -> & _).
Qed.

(** With a layer count of at least one the constructor appends the
    input layer, one hidden layer per remaining unit of the count and
    the output layer. *)
Lemma GraphSAGEModel_init_length
  (i h o : nat) (n : Z) (act : option (R -> R)) (p : R) (agg : aggregator) (s : rng) :
  (1 <= n)%Z ->
  exists l_in l_hid l_out,
    layers (fst (GraphSAGEModel_init i h o n act p agg s)) = l_in :: l_hid ++ [l_out] /\
    Z.of_nat (length l_hid) = (n - 1)%Z /\
    Z.of_nat (length (layers (fst (GraphSAGEModel_init i h o n act p agg s)))) = (n + 1)%Z.
Proof.
  intros Hn.
  destruct (GraphSAGEModel_init_layers i h o n act p agg s)
    as (l_in & l_hid & l_out & E & _ & Hlen & _).
  exists l_in, l_hid, l_out. rewrite E. split; [reflexivity|].
  cbn [length]. rewrite length_app. cbn [length]. lia.
Qed.

End ConstructionClaims.

(** ** Forward passes *)

Section Forward.
Context `{B : Backend}.

Lemma SAGEConv_forward_eval layer g h s :
  training layer = false ->
  SAGEConv_forward layer g h s = (SAGEConv_apply layer g h, s).
Proof. intros E. unfold SAGEConv_forward, Dropout_forward. now rewrite E. Qed.

Lemma forward_layers_eval ls g h s :
  Forall (fun l => training l = false) ls ->
  forward_layers ls g h s = (apply_layers ls g h, s).
Proof.
  intros H. revert h s. induction H as [|l ls Hl _ IH]; intros h s; cbn.
  - reflexivity.
  - unfold Mon.bind. rewrite SAGEConv_forward_eval by exact Hl.
    destruct (SAGEConv_apply l g h) as [h'|e]; cbn; [apply IH | reflexivity].
Qed.

Lemma set_training_all mode ls :
  Forall (fun l => training l = mode) (map (set_training mode) ls).
Proof. induction ls; cbn; constructor; auto. Qed.

Lemma GraphSAGEModel_forward_eval m g X s :
  GraphSAGEModel_forward (GraphSAGEModel_set_training false m) g X s =
  (apply_layers (map (set_training false) (layers m)) g X, s).
Proof. apply forward_layers_eval, set_training_all. Qed.

Lemma set_training_idem mode ls :
  map (set_training mode) (map (set_training mode) ls) = map (set_training mode) ls.
Proof. rewrite map_map. apply map_ext. now intros []. Qed.

Lemma layer_parameters_set_training mode ls :
  flat_map layer_parameters (map (set_training mode) ls) = flat_map layer_parameters ls.
Proof. induction ls as [|l ls IH]; cbn; [reflexivity|]. now rewrite IH. Qed.

Lemma parameters_set_mode mode m : parameters (set_mode mode m) = parameters m.
Proof. apply layer_parameters_set_training. Qed.

End Forward.

(** ** The Evaluator as a function of the state *)

Section Evaluate.
Context `{B : Backend}.

Lemma NCEvaluate_run g X labels idx (w : world) :
  NCEvaluate g X labels idx w = (accuracy (model w) g X labels idx, after_evaluate idx w).
Proof.
  unfold NCEvaluate, accuracy, after_evaluate, record, model_eval, with_random,
    Mon.bind, Mon.modify, Mon.gets, Mon.lift, set_model, set_random.
  cbn. rewrite forward_layers_eval by apply set_training_all. cbn.
  destruct (apply_layers _ g X) as [logits|e]; cbn; [|reflexivity].
  destruct (index_select logits idx) as [lg|e]; cbn; [|reflexivity].
  destruct (index_select labels idx) as [tl|e]; cbn; [|reflexivity].
  destruct (torch_max lg) as [vi|e]; cbn; reflexivity.
Qed.

Lemma accuracy_set_mode mode m g X labels idx :
  accuracy (set_mode mode m) g X labels idx = accuracy m g X labels idx.
Proof.
  unfold accuracy. cbn. rewrite map_map.
  replace (map (fun x => set_training false (set_training mode x)) (layers (gconv_model m)))
    with (map (set_training false) (layers (gconv_model m)))
    by (apply map_ext; now intros []).
  reflexivity.
Qed.

End Evaluate.

(** ** Determinism of inference *)

Section Determinism.
Context `{B : Backend}.

(** C5.  In evaluation mode the stack neither reads nor advances the
    random state: a second run, started in whatever state the first
    one left, returns the very same table (or the very same error),
    and so does a run from any other random state.  Two successive
    calls of [NCEvaluate] likewise report the same accuracy. *)
Theorem eval_forward_deterministic
  (m : GraphSAGEModel) (g : DGLGraph) (X : matrix) (s s2 : rng)
  (labels : list Z) (idx : list nat) (w : world) :
  let m_eval := GraphSAGEModel_set_training false m in
  let run1 := GraphSAGEModel_forward m_eval g X s in
  let run2 := GraphSAGEModel_forward m_eval g X (snd run1) in
  fst run1 = fst run2 /\
  snd run1 = s /\
  fst (GraphSAGEModel_forward m_eval g X s2) = fst run1 /\
  fst (NCEvaluate g X labels idx (snd (NCEvaluate g X labels idx w))) =
  fst (NCEvaluate g X labels idx w).
Proof.
  cbv zeta. rewrite !GraphSAGEModel_forward_eval. cbn [fst snd].
  repeat split; try reflexivity.
  rewrite !NCEvaluate_run. cbn. apply accuracy_set_mode.
Qed.

End Determinism.

(** In training mode, by contrast, two runs of one layer from
    successive random states need not agree. *)
Example training_forward_differs :
  let layer := fst (SAGEConv_init (B := test_backend) 1 1 agg_gcn (1 / 2) None 0%nat) in
  let X := [[1]] in
  let run1 := SAGEConv_forward (B := test_backend) layer single_node X 1%nat in
  let run2 := SAGEConv_forward (B := test_backend) layer single_node X (snd run1) in
  fst run1 <> fst run2.
Proof.
  cbn. unfold SAGEConv_apply. cbn. unfold node_update. cbn.
  unfold combine_self, Linear_forward. cbn.
  intros H. injection H as H. lra.
Qed.

(** ** The Aggregation Layer on isolated nodes *)

(** C6.  A node without neighbours gets the zero vector (of the
    layer's input width) as its neighbour aggregate, whatever the
    aggregation policy; it is this zero vector that the
    self-combination step then receives together with the node's own
    embedding. *)
Theorem isolated_node_zero_aggregate
  (layer : SAGEConv) (g : DGLGraph) (h : matrix) (v : nat) :
  in_degree g v = 0%nat ->
  neighbor_aggregate layer g h v = Ok (vzeros (in_feats layer)) /\
  node_update layer g h v =
    match nth_error h v with
    | Some h_self =>
        Ok (apply_activation (activation layer)
              (combine_self layer 0 h_self (vzeros (in_feats layer))))
    | None => Raise OutOfRange
    end.
Proof.
  intros Hdeg.
  assert (Hn : in_neighbors g v = []).
  { unfold in_degree in Hdeg. now apply length_zero_iff_nil. }
  assert (Hagg : neighbor_aggregate layer g h v = Ok (vzeros (in_feats layer))).
  { unfold neighbor_aggregate. rewrite Hn. cbn.
    now destruct (aggre_type layer). }
  split; [exact Hagg|].
  unfold node_update. rewrite Hagg, Hdeg. reflexivity.
Qed.

Lemma isolated_node_zero_aggregate_witness :
  in_degree single_node 0 = 0%nat /\
  neighbor_aggregate (fst (SAGEConv_init (B := test_backend) 2 1 agg_mean 0 None 0%nat))
    single_node [[3; 4]] 0 = Ok [0; 0].
Proof.
  split; [reflexivity|].
  apply (isolated_node_zero_aggregate
           (fst (SAGEConv_init (B := test_backend) 2 1 agg_mean 0 None 0%nat))
           single_node [[3; 4]] 0).
  reflexivity.
Defined.

(** ** Results of maps and selections *)

Lemma rmap_ok {A C} (f : A -> result C) (f' : A -> C) (xs : list A) :
  (forall x, In x xs -> f x = Ok (f' x)) -> rmap f xs = Ok (map f' xs).
Proof.
  induction xs as [|x xs IH]; intros H; cbn; [reflexivity|].
  rewrite (H x) by now left. cbn.
  rewrite IH by (intros; apply H; now right). reflexivity.
Qed.

Lemma rmap_map {A A' C} (f : A' -> result C) (h : A -> A') (xs : list A) :
  rmap f (map h xs) = rmap (fun x => f (h x)) xs.
Proof. induction xs as [|x xs IH]; cbn; [reflexivity|]. now rewrite IH. Qed.

Lemma rmap_length {A C} (f : A -> result C) (xs : list A) (ys : list C) :
  rmap f xs = Ok ys -> length ys = length xs.
Proof.
  revert ys. induction xs as [|x xs IH]; intros ys; cbn.
  - intros [= <-]. reflexivity.
  - destruct (f x) as [y|e]; cbn; [|discriminate].
    destruct (rmap f xs) as [zs|e]; cbn; [|discriminate].
    intros [= <-]. cbn. now rewrite (IH zs).
Qed.

Lemma index_select_ok {A} (d : A) (X : list A) (idx : list nat) :
  (forall i, In i idx -> (i < length X)%nat) ->
  index_select X idx = Ok (map (fun i => nth i X d) idx).
Proof.
  intros H. apply rmap_ok. intros i Hi.
  destruct (nth_error X i) eqn:E.
  - now rewrite (nth_error_nth _ _ d E).
  - apply nth_error_None in E. specialize (H i Hi). lia.
Qed.

Lemma index_select_nil {A} (X : list A) : index_select X [] = Ok [].
Proof. reflexivity. Qed.

Lemma combine_map_both {A C D} (f : A -> C) (h : A -> D) (xs : list A) :
  combine (map f xs) (map h xs) = map (fun x => (f x, h x)) xs.
Proof. induction xs as [|x xs IH]; cbn; [reflexivity|]. now rewrite IH. Qed.

(** ** The cross-entropy loss *)

Lemma Rsum_cons (a : R) (x : vector) : Rsum (a :: x) = a + Rsum x.
Proof. reflexivity. Qed.

Lemma Rsum_exp_nonneg (x : vector) : 0 <= Rsum (map exp x).
Proof.
  induction x as [|b x IH]; cbn [map]; [cbn; lra|].
  rewrite Rsum_cons. pose proof (exp_pos b). lra.
Qed.

Lemma Rsum_exp_pos (x : vector) : x <> [] -> 0 < Rsum (map exp x).
Proof.
  destruct x as [|a x]; [congruence|]. intros _. cbn [map].
  rewrite Rsum_cons.
  pose proof (Rsum_exp_nonneg x). pose proof (exp_pos a). lra.
Qed.

Lemma Rsum_exp_shift (m : R) (x : vector) :
  Rsum (map (fun c => exp (c - m)) x) = exp (- m) * Rsum (map exp x).
Proof.
  induction x as [|a x IH]; cbn [map]; [cbn; lra|].
  rewrite !Rsum_cons, IH. unfold Rminus. rewrite exp_plus. lra.
Qed.

(** Subtracting the largest score first does not change the value. *)
Lemma log_sum_exp_eq (x : vector) :
  x <> [] -> log_sum_exp x = ln (Rsum (map exp x)).
Proof.
  intros Hx. unfold log_sum_exp. cbv zeta.
  rewrite Rsum_exp_shift.
  rewrite ln_mult by (apply exp_pos || now apply Rsum_exp_pos).
  rewrite ln_exp. lra.
Qed.

Lemma cross_entropy_row_ok (x : vector) (t : Z) :
  (0 <= t < Z.of_nat (length x))%Z ->
  cross_entropy_row x t = Ok (- nth (Z.to_nat t) x 0 + ln (Rsum (map exp x))).
Proof.
  intros Ht. unfold cross_entropy_row.
  replace ((0 <=? t)%Z && (t <? Z.of_nat (length x))%Z)%bool with true
    by (symmetry; apply andb_true_intro; split; [apply Z.leb_le|apply Z.ltb_lt]; lia).
  rewrite log_sum_exp_eq; [reflexivity|].
  destruct x; [cbn in Ht; lia|congruence].
Qed.

Section Loss.
Context `{B : Backend}.

(** C1.  On a node subset whose members have a row in the final
    embedding table [score] and a label among that row's classes, the
    classification head returns the mean over the subset of
    [- score[i, label[i]] + log (sum_c exp (score[i, c]))]. *)
Theorem NodeClassification_forward_loss
  (m : GraphSAGEModel) (n_hidden n_classes : nat) (labels : list Z)
  (g : DGLGraph) (X : matrix) (S : list nat) (s s' : rng) (score : matrix) :
  GraphSAGEModel_forward m g X s = (Ok score, s') ->
  S <> [] ->
  (forall i, In i S ->
     (i < length score)%nat /\ (i < length labels)%nat /\
     (0 <= nth i labels 0%Z < Z.of_nat (length (nth i score [])))%Z) ->
  NodeClassification_forward (NodeClassification_init m n_hidden n_classes)
    labels g X S s =
  (Ok (Rsum (map (fun i => - nth (Z.to_nat (nth i labels 0%Z)) (nth i score []) 0
                           + ln (Rsum (map exp (nth i score [])))) S)
       / INR (length S)), s').
Proof.
  intros Hfwd _ Hin.
  unfold NodeClassification_forward, Mon.bind, Mon.lift. cbn [gconv_model loss_fcn NodeClassification_init].
  rewrite Hfwd. cbv iota beta.
  rewrite (index_select_ok ([] : vector) score S) by (intros i Hi; apply (Hin i Hi)).
  rewrite (index_select_ok 0%Z labels S) by (intros i Hi; apply (Hin i Hi)).
  cbn [rbind]. unfold CrossEntropyLoss.
  rewrite !length_map, Nat.eqb_refl, combine_map_both, rmap_map.
  rewrite (rmap_ok _ (fun i => - nth (Z.to_nat (nth i labels 0%Z)) (nth i score []) 0
                               + ln (Rsum (map exp (nth i score []))))).
  - cbn [rbind]. now rewrite length_map.
  - intros i Hi. cbn [fst snd]. apply cross_entropy_row_ok, (Hin i Hi).
Qed.

End Loss.

(** ** Arg-max *)

(** The scan keeps, for the part of the row already seen, the first
    position of its maximum. *)
Lemma max_from_spec (x : vector) :
  forall (pre : vector) (best : R) (bi : nat),
    (bi < length pre)%nat ->
    nth bi pre 0 = best ->
    (forall j, (j < length pre)%nat -> nth j pre 0 <= best) ->
    (forall j, (j < bi)%nat -> nth j pre 0 < best) ->
    let r := max_from best bi (length pre) x in
    let row := pre ++ x in
    (snd r < length row)%nat /\
    nth (snd r) row 0 = fst r /\
    (forall j, (j < length row)%nat -> nth j row 0 <= fst r) /\
    (forall j, (j < snd r)%nat -> nth j row 0 < fst r).
Proof.
  induction x as [|a x IH]; intros pre best bi Hbi Hbest Hle Hlt; cbn [max_from].
  - cbv zeta. rewrite app_nil_r. cbn [fst snd]. auto.
  - assert (Hrow : pre ++ a :: x = (pre ++ [a]) ++ x) by now rewrite <- app_assoc.
    assert (Hlen : length (pre ++ [a]) = S (length pre))
      by (rewrite length_app; cbn; lia).
    assert (Hnew : nth (length pre) (pre ++ [a]) 0 = a)
      by (rewrite app_nth2 by lia; now rewrite Nat.sub_diag).
    cbv zeta. rewrite Hrow. destruct (Rlt_dec best a) as [Hba|Hba].
    + rewrite <- Hlen. apply IH.
      * rewrite Hlen. lia.
      * exact Hnew.
      * intros j Hj. rewrite Hlen in Hj.
        destruct (Nat.eq_dec j (length pre)) as [->|Hne]; [rewrite Hnew; lra|].
        rewrite app_nth1 by lia. specialize (Hle j ltac:(lia)). lra.
      * intros j Hj.
        rewrite app_nth1 by lia. specialize (Hle j ltac:(lia)). lra.
    + rewrite <- Hlen. apply IH.
      * rewrite Hlen. lia.
      * now rewrite app_nth1 by lia.
      * intros j Hj. rewrite Hlen in Hj.
        destruct (Nat.eq_dec j (length pre)) as [->|Hne]; [rewrite Hnew; lra|].
        rewrite app_nth1 by lia. apply Hle. lia.
      * intros j Hj. rewrite app_nth1 by lia. now apply Hlt.
Qed.

(** [argmax] returns a position of the maximum, and the lowest one. *)
Lemma argmax_spec (row : vector) :
  row <> [] ->
  (argmax row < length row)%nat /\
  (forall j, (j < length row)%nat -> nth j row 0 <= nth (argmax row) row 0) /\
  (forall j, (j < argmax row)%nat -> nth j row 0 < nth (argmax row) row 0).
Proof.
  destruct row as [|a x]; [congruence|]. intros _.
  unfold argmax, max_with_index.
  pose proof (max_from_spec x [a] a 0%nat) as H. cbn [length app] in H.
  specialize (H ltac:(lia) eq_refl).
  destruct (max_from a 0 1 x) as [v k]. cbn [fst snd] in H.
  destruct H as (Hk & Hv & Hle & Hlt).
  - intros [|j] Hj; cbn; [lra|lia].
  - intros j Hj. lia.
  - rewrite Hv. auto.
Qed.

Lemma torch_max_indices (rows : matrix) :
  Forall (fun row => row <> []) rows ->
  exists values, torch_max rows = Ok (values, map argmax rows).
Proof.
  intros H. unfold torch_max.
  assert (E : rmap max_with_index rows =
              Ok (map (fun row => (fst (max_from (hd 0 row) 0 1 (tl row)), argmax row)) rows)).
  { apply rmap_ok. intros row Hrow. rewrite Forall_forall in H.
    specialize (H row Hrow). destruct row as [|a x]; [congruence|].
    unfold argmax. cbn. now destruct (max_from a 0 1 x). }
  rewrite E. cbn [rbind]. rewrite !map_map. cbn [fst snd]. eauto.
Qed.

Lemma count_equal_map (f : nat -> nat) (h : nat -> Z) (S : list nat) :
  count_equal (map f S) (map h S) =
  length (filter (fun i => Z.eqb (Z.of_nat (f i)) (h i)) S).
Proof.
  unfold count_equal. rewrite combine_map_both.
  induction S as [|i S IH]; cbn; [reflexivity|].
  destruct (Z.of_nat (f i) =? h i)%Z; cbn; now rewrite IH.
Qed.

Lemma py_div_ok (x : R) (n : nat) : n <> 0%nat -> py_div x n = Ok (x / INR n).
Proof. destruct n; [congruence|reflexivity]. Qed.

(** ** The toy stack, evaluated *)

Lemma toy_apply_layers :
  apply_layers (map (set_training false) (layers toy_model)) two_nodes toy_features
  = Ok toy_scores.
Proof. run_model. by_entries; lra. Qed.

Lemma toy_forward_eval (s : nat) :
  GraphSAGEModel_forward (B := test_backend)
    (GraphSAGEModel_set_training false toy_model) two_nodes toy_features s
  = (Ok toy_scores, s).
Proof. rewrite GraphSAGEModel_forward_eval. now rewrite toy_apply_layers. Qed.

(** ** The Evaluator *)

Section Accuracy.
Context `{B : Backend}.

(** C3.  [NCEvaluate] on a non-empty subset returns the number of
    subset nodes whose predicted class equals the label, divided by
    the size of the subset.  The predicted class of a node is the
    arg-max of its row of scores: a class of maximal score, and among
    tied maxima the one of lowest index (every class before it has a
    strictly smaller score). *)
Theorem NCEvaluate_accuracy
  (g : DGLGraph) (X : matrix) (labels : list Z) (S : list nat)
  (w : world) (score : matrix) :
  fst (GraphSAGEModel_forward (GraphSAGEModel_set_training false (gconv_model (model w)))
         g X (random w)) = Ok score ->
  S <> [] ->
  (forall i, In i S ->
     (i < length score)%nat /\ (i < length labels)%nat /\ nth i score [] <> []) ->
  fst (NCEvaluate g X labels S w) =
    Ok (INR (length (filter (fun i => Z.eqb (Z.of_nat (argmax (nth i score [])))
                                            (nth i labels 0%Z)) S))
        / INR (length S)) /\
  (forall i, In i S ->
     let row := nth i score [] in
     (argmax row < length row)%nat /\
     (forall c, (c < length row)%nat -> nth c row 0 <= nth (argmax row) row 0) /\
     (forall c, (c < argmax row)%nat -> nth c row 0 < nth (argmax row) row 0)).
Proof.
  intros Hfwd HS Hin. split.
  - rewrite NCEvaluate_run. cbn [fst]. unfold accuracy.
    rewrite GraphSAGEModel_forward_eval in Hfwd. cbn [fst] in Hfwd. rewrite Hfwd.
    cbn [rbind].
    rewrite (index_select_ok ([] : vector) score S) by (intros i Hi; apply (Hin i Hi)).
    rewrite (index_select_ok 0%Z labels S) by (intros i Hi; apply (Hin i Hi)).
    cbn [rbind].
    destruct (torch_max_indices (map (fun i => nth i score []) S)) as [values E].
    { apply Forall_forall. intros row Hrow. apply in_map_iff in Hrow.
      destruct Hrow as (i & <- & Hi). apply (Hin i Hi). }
    rewrite E. cbn [rbind snd]. rewrite map_map, count_equal_map, length_map.
    rewrite py_div_ok by (destruct S; [congruence|cbn; lia]).
    now rewrite Rmult_1_r.
  - intros i Hi. cbv zeta. apply argmax_spec, (Hin i Hi).
Qed.

End Accuracy.

Lemma NCEvaluate_accuracy_witness :
  fst (NCEvaluate two_nodes toy_features toy_labels [0; 1]%nat toy_world) =
  Ok (INR (length (filter (fun i => Z.eqb (Z.of_nat (argmax (nth i toy_scores [])))
                                          (nth i toy_labels 0%Z)) [0; 1]%nat))
      / INR 2).
Proof.
  apply (NCEvaluate_accuracy (B := test_backend)
           two_nodes toy_features toy_labels [0; 1]%nat toy_world toy_scores).
  - cbn [model toy_world initial_world NodeClassification_init gconv_model random].
    now rewrite toy_forward_eval.
  - discriminate.
  - intros i [<-|[<-|[]]]; cbn; (split; [lia|split; [lia|discriminate]]).
Defined.

(** On the toy stack both classes tie everywhere, the lowest index
    wins, and one label out of two is matched. *)
Example toy_accuracy_on_ties :
  argmax [3 / 2; 3 / 2] = 0%nat /\
  fst (NCEvaluate two_nodes toy_features toy_labels [0; 1]%nat toy_world) = Ok (1 / 2).
Proof.
  assert (A : argmax [3 / 2; 3 / 2] = 0%nat).
  { unfold argmax. cbn. destruct (Rlt_dec (3 / 2) (3 / 2)) as [H|H]; [lra|reflexivity]. }
  split; [exact A|].
  rewrite NCEvaluate_run. cbn [fst]. unfold accuracy.
  cbn [model toy_world initial_world NodeClassification_init gconv_model].
  rewrite toy_apply_layers. unfold toy_scores, torch_max. cbn - [Rdiv INR].
  destruct (Rlt_dec (3 / 2) (3 / 2)) as [H|H]; [lra|].
  cbn. f_equal. lra.
Qed.

(** ** Empty subsets *)

Lemma rbind_no_zero_division {A C} (r : result A) (k : A -> result C) :
  no_zero_division r -> (forall a, r = Ok a -> no_zero_division (k a)) ->
  no_zero_division (rbind r k).
Proof.
  unfold no_zero_division. destruct r as [a|e]; cbn; intros Hr Hk.
  - now apply Hk.
  - intros [= ->]. now apply Hr.
Qed.

Lemma rmap_no_zero_division {A C} (f : A -> result C) (xs : list A) :
  (forall x, no_zero_division (f x)) -> no_zero_division (rmap f xs).
Proof.
  intros Hf. induction xs as [|x xs IH]; cbn; [discriminate|].
  apply rbind_no_zero_division; [apply Hf|]. intros y _.
  apply rbind_no_zero_division; [exact IH|]. discriminate.
Qed.

Lemma index_select_no_zero_division {A} (X : list A) (idx : list nat) :
  no_zero_division (index_select X idx).
Proof.
  apply rmap_no_zero_division. intros i. destruct (nth_error X i); discriminate.
Qed.

Lemma apply_layers_no_zero_division ls g h :
  no_zero_division (apply_layers ls g h).
Proof.
  revert h. induction ls as [|l ls IH]; intros h; cbn; [discriminate|].
  apply rbind_no_zero_division; [|intros; apply IH].
  unfold SAGEConv_apply. destruct (check_shape l g h); [|discriminate].
  apply rmap_no_zero_division. intros v. unfold node_update.
  destruct (nth_error h v); [|discriminate].
  apply rbind_no_zero_division; [|discriminate].
  unfold neighbor_aggregate.
  apply rbind_no_zero_division; [apply index_select_no_zero_division|discriminate].
Qed.

Lemma torch_max_no_zero_division X : no_zero_division (torch_max X).
Proof.
  unfold torch_max. apply rbind_no_zero_division; [|discriminate].
  apply rmap_no_zero_division. intros [|a x]; discriminate.
Qed.

Lemma index_select_length {A} (X : list A) (idx : list nat) (ys : list A) :
  index_select X idx = Ok ys -> length ys = length idx.
Proof. apply rmap_length. Qed.

Section EmptySubset.
Context `{B : Backend}.

(** C4, as the code has it.  Once the forward pass has succeeded,
    [NCEvaluate] on an empty subset raises [ZeroDivisionError], from
    its final division by [len(test_labels) = 0], and returns no
    accuracy.  The loss computation has no check of its own: whatever
    the loss function of the module, on an empty subset it hands the
    empty batch to that function and returns what the function
    returns for it.  On a subset with at least one node [NCEvaluate]
    never raises [ZeroDivisionError]. *)
Theorem empty_subset_behaviour
  (self : NodeClassification) (labels : list Z)
  (g : DGLGraph) (X : matrix) (s s' : rng) (score score_e : matrix) (w : world) :
  GraphSAGEModel_forward (gconv_model self) g X s = (Ok score, s') ->
  fst (GraphSAGEModel_forward (GraphSAGEModel_set_training false (gconv_model (model w)))
         g X (random w)) = Ok score_e ->
  NodeClassification_forward self labels g X [] s = (loss_fcn self [] [], s') /\
  fst (NCEvaluate g X labels [] w) = Raise ZeroDivisionError /\
  (forall S, S <> [] -> no_zero_division (fst (NCEvaluate g X labels S w))).
Proof.
  intros Hfwd Heval. split; [|split].
  - unfold NodeClassification_forward, Mon.bind, Mon.lift. now rewrite Hfwd.
  - rewrite NCEvaluate_run. cbn [fst]. unfold accuracy.
    rewrite GraphSAGEModel_forward_eval in Heval. cbn [fst] in Heval.
    now rewrite Heval.
  - intros S HS. rewrite NCEvaluate_run. cbn [fst]. unfold accuracy.
    apply rbind_no_zero_division; [apply apply_layers_no_zero_division|].
    intros logits _.
    apply rbind_no_zero_division; [apply index_select_no_zero_division|].
    intros lg _.
    apply rbind_no_zero_division; [apply index_select_no_zero_division|].
    intros tl Htl.
    apply rbind_no_zero_division; [apply torch_max_no_zero_division|].
    intros vi _. apply index_select_length in Htl.
    rewrite py_div_ok; [discriminate|].
    destruct S; [congruence|]. cbn in Htl. lia.
Qed.

End EmptySubset.

Lemma toy_forward_training :
  is_ok (fst (GraphSAGEModel_forward (B := test_backend) toy_model two_nodes
                toy_features 0%nat)) = true.
Proof. reflexivity. Qed.

Lemma empty_subset_behaviour_witness :
  NodeClassification_forward (B := test_backend)
    (NodeClassification_init (GraphSAGEModel_set_training false toy_model) 1 2)
    toy_labels two_nodes toy_features [] 0%nat = (CrossEntropyLoss [] [], 0%nat) /\
  fst (NCEvaluate two_nodes toy_features toy_labels [] toy_world)
    = Raise ZeroDivisionError /\
  (forall S, S <> [] ->
     no_zero_division (fst (NCEvaluate two_nodes toy_features toy_labels S toy_world))).
Proof.
  apply (empty_subset_behaviour (B := test_backend)
           (NodeClassification_init (GraphSAGEModel_set_training false toy_model) 1 2)
           toy_labels two_nodes toy_features 0%nat 0%nat toy_scores toy_scores
           toy_world).
  - apply toy_forward_eval.
  - cbn [model toy_world initial_world NodeClassification_init gconv_model random].
    now rewrite toy_forward_eval.
Defined.

(** C4 as the specification words it fails: on the empty subset the loss
    computation of the toy stack does not raise (it returns what the
    loss function makes of the empty batch), and the evaluation fails
    with Python's [ZeroDivisionError]; there is no dedicated error for
    empty subsets. *)
Lemma empty_subset_counterexample :
  is_ok (fst (NodeClassification_forward (B := test_backend)
                (NodeClassification_init toy_model 1 2)
                toy_labels two_nodes toy_features [] 0%nat)) = true /\
  fst (NCEvaluate two_nodes toy_features toy_labels [] toy_world)
    = Raise ZeroDivisionError.
Proof. split; reflexivity. Qed.

(** ** Who writes the parameters *)

Section Frame.
Context `{B : Backend}.

Lemma model_call_model labels g X idx (w : world) :
  model (snd (model_call labels g X idx w)) = model w.
Proof.
  unfold model_call, record, with_random, Mon.bind, Mon.modify, Mon.gets, Mon.ret.
  cbn. destruct (NodeClassification_forward _ _ _ _ _ _) as [[v|e] s]; reflexivity.
Qed.

(** C8.  [NCEvaluate] leaves every learnable parameter as it found
    it (it only switches the module to evaluation mode), and so do
    the other statements of the loop body: switching to training mode,
    the forward pass of the loss, resetting the gradients, the
    backward pass and printing.  The one statement left,
    [optimizer.step()], is the only writer of parameters. *)
Theorem parameters_frame
  (g : DGLGraph) (X : matrix) (labels : list Z) (idx : list nat)
  (loss : loss_tensor) (l : line) (w : world) :
  parameters (model (snd (NCEvaluate g X labels idx w))) = parameters (model w) /\
  parameters (model (snd (model_train w))) = parameters (model w) /\
  parameters (model (snd (model_call labels g X idx w))) = parameters (model w) /\
  parameters (model (snd (optimizer_zero_grad w))) = parameters (model w) /\
  parameters (model (snd (loss_backward loss w))) = parameters (model w) /\
  parameters (model (snd (print l w))) = parameters (model w).
Proof.
  repeat split.
  - rewrite NCEvaluate_run. cbn. apply layer_parameters_set_training.
  - cbn. apply layer_parameters_set_training.
  - now rewrite model_call_model.
Qed.

End Frame.

(** The optimizer step, by contrast, does write: on the toy state,
    with gradients present and an update that replaces every
    parameter by zeros, the parameters change. *)
Example optimizer_step_writes :
  let B' :=
    {| rng := nat;
       bernoulli := fun _ s => (true, s);
       reset_parameters := reset_parameters (Backend := test_backend);
       opt_state := nat;
       Adam_init := fun _ _ _ => O;
       Adam_step := fun o ps _ => (map Linear_zero ps, S o);
       autograd := fun _ ps => ps |} in
  let w := initial_world (B := B') toy_model 1 2 (1 / 1000) (5 / 10000) 0%nat in
  let w1 := snd (loss_backward (B := B') {| item := 0; grad_fn := parameters (model w) |} w) in
  parameters (model (snd (optimizer_step (B := B') w1))) <> parameters (model w1).
Proof.
  cbv zeta. run_model. intros H. injection H as H _. lra.
Qed.

(** ** The order of the steps of a run *)

Section Order.
Context `{B : Backend}.













End Order.


(** ** The receptive field of a stack *)

Lemma rmap_nth {A C} (f : A -> result C) (xs : list A) (ys : list C) :
  rmap f xs = Ok ys ->
  forall i x, nth_error xs i = Some x ->
    exists y, f x = Ok y /\ nth_error ys i = Some y.
Proof.
  revert ys. induction xs as [|a xs IH]; intros ys H i x Hi.
  - now destruct i.
  - cbn in H. destruct (f a) as [b|e] eqn:Ea; cbn in H; [|discriminate].
    destruct (rmap f xs) as [bs|e] eqn:Er; cbn in H; [|discriminate].
    injection H as <-. destruct i as [|i]; cbn in *.
    + injection Hi as <-. eauto.
    + now apply IH.
Qed.

Lemma rmap_ext_in {A C} (f f' : A -> result C) (xs : list A) :
  (forall x, In x xs -> f x = f' x) -> rmap f xs = rmap f' xs.
Proof.
  induction xs as [|a xs IH]; intros H; cbn; [reflexivity|].
  rewrite (H a) by now left. rewrite IH; [reflexivity|].
  intros x Hx. apply H. now right.
Qed.

(** The update of a node reads the table at the node and at its
    in-neighbours only. *)
Lemma node_update_local layer g (X X' : matrix) x :
  nth_error X x = nth_error X' x ->
  (forall u, In u (in_neighbors g x) -> nth_error X u = nth_error X' u) ->
  node_update layer g X x = node_update layer g X' x.
Proof.
  intros Hx Hn. unfold node_update, neighbor_aggregate, index_select.
  rewrite Hx.
  rewrite (rmap_ext_in _ (fun i => match nth_error X' i with
                                   | Some r => Ok r
                                   | None => Raise OutOfRange
                                   end) (in_neighbors g x)); [reflexivity|].
  intros u Hu. now rewrite (Hn u Hu).
Qed.

Lemma SAGEConv_apply_length layer g X A :
  SAGEConv_apply layer g X = Ok A -> length A = number_of_nodes g.
Proof.
  unfold SAGEConv_apply. destruct (check_shape layer g X); [|discriminate].
  intros H. apply rmap_length in H. now rewrite length_seq in H.
Qed.

Lemma SAGEConv_apply_local layer g (X X' A A' : matrix) x :
  SAGEConv_apply layer g X = Ok A ->
  SAGEConv_apply layer g X' = Ok A' ->
  nth_error X x = nth_error X' x ->
  (forall u, In u (in_neighbors g x) -> nth_error X u = nth_error X' u) ->
  nth_error A x = nth_error A' x.
Proof.
  intros HA HA' Hx Hn.
  pose proof (SAGEConv_apply_length _ _ _ _ HA) as LA.
  pose proof (SAGEConv_apply_length _ _ _ _ HA') as LA'.
  unfold SAGEConv_apply in HA, HA'.
  destruct (check_shape layer g X); [|discriminate].
  destruct (check_shape layer g X'); [|discriminate].
  destruct (Nat.lt_ge_cases x (number_of_nodes g)) as [Hlt|Hge].
  - assert (Hs : nth_error (seq 0 (number_of_nodes g)) x = Some x).
    { rewrite (nth_error_nth' _ 0%nat) by now rewrite length_seq.
      now rewrite seq_nth. }
    destruct (rmap_nth _ _ _ HA x x Hs) as (y & Ey & ->).
    destruct (rmap_nth _ _ _ HA' x x Hs) as (y' & Ey' & ->).
    rewrite (node_update_local layer g X X' x Hx Hn) in Ey. congruence.
  - rewrite (proj2 (nth_error_None A x)) by lia.
    now rewrite (proj2 (nth_error_None A' x)) by lia.
Qed.

Lemma check_shape_rows layer g X :
  check_shape layer g X = true ->
  map (@length R) X = repeat (in_feats layer) (number_of_nodes g).
Proof.
  unfold check_shape. intros H. apply andb_prop in H. destruct H as [Hl Hr].
  apply Nat.eqb_eq in Hl. rewrite <- Hl. clear Hl.
  induction X as [|r X IH]; cbn in *; [reflexivity|].
  apply andb_prop in Hr. destruct Hr as [Hr1 Hr2].
  apply Nat.eqb_eq in Hr1. rewrite Hr1. now rewrite IH.
Qed.

Section ReceptiveField.
Context `{B : Backend}.

Lemma dropout_vector_length p x s :
  length (fst (dropout_vector p x s)) = length x.
Proof.
  revert s. induction x as [|a x IH]; intros s; cbn; [reflexivity|].
  destruct (bernoulli (1 - p) s) as [keep s1].
  specialize (IH s1). destruct (dropout_vector p x s1). cbn in *. now rewrite IH.
Qed.

(** The random state after masking a row depends on the length of
    the row only. *)
Lemma dropout_vector_state p x x' s :
  length x = length x' ->
  snd (dropout_vector p x s) = snd (dropout_vector p x' s).
Proof.
  revert x' s. induction x as [|a x IH]; intros [|a' x'] s H; cbn in *;
    try discriminate; [reflexivity|].
  destruct (bernoulli (1 - p) s) as [keep s1].
  specialize (IH x' s1 ltac:(lia)).
  destruct (dropout_vector p x s1), (dropout_vector p x' s1). exact IH.
Qed.

Lemma dropout_matrix_rows p X s :
  map (@length R) (fst (dropout_matrix p X s)) = map (@length R) X.
Proof.
  revert s. induction X as [|x X IH]; intros s; cbn; [reflexivity|].
  pose proof (dropout_vector_length p x s) as Hx.
  destruct (dropout_vector p x s) as [y s1].
  specialize (IH s1). destruct (dropout_matrix p X s1). cbn in *.
  now rewrite Hx, IH.
Qed.

(** Dropout is entry-wise: on two tables of the same shape it leaves
    the same random state, and rows that agree stay in agreement. *)
Lemma dropout_matrix_local p (X X' : matrix) s :
  map (@length R) X = map (@length R) X' ->
  snd (dropout_matrix p X s) = snd (dropout_matrix p X' s) /\
  (forall u, nth_error X u = nth_error X' u ->
     nth_error (fst (dropout_matrix p X s)) u =
     nth_error (fst (dropout_matrix p X' s)) u).
Proof.
  revert X' s. induction X as [|x X IH]; intros [|x' X'] s H; cbn in H;
    try discriminate.
  - split; [reflexivity|]. intros u _. reflexivity.
  - injection H as Hx HX. cbn [dropout_matrix].
    pose proof (dropout_vector_state p x x' s Hx) as Hs.
    destruct (dropout_vector p x s) as [y s1] eqn:Ey.
    destruct (dropout_vector p x' s) as [y' s1'] eqn:Ey'.
    cbn in Hs. subst s1'.
    destruct (IH X' s1 HX) as [IHs IHn].
    destruct (dropout_matrix p X s1) as [Y s2].
    destruct (dropout_matrix p X' s1) as [Y' s2'].
    cbn in *. split; [exact IHs|].
    intros [|u] Hu; cbn in *.
    + injection Hu as <-. rewrite Ey in Ey'. now injection Ey' as <-.
    + now apply IHn.
Qed.

Lemma SAGEConv_forward_local layer g (X X' A A' : matrix) s s1 s1' :
  SAGEConv_forward layer g X s = (Ok A, s1) ->
  SAGEConv_forward layer g X' s = (Ok A', s1') ->
  s1 = s1' /\
  (forall x, nth_error X x = nth_error X' x ->
     (forall u, In u (in_neighbors g x) -> nth_error X u = nth_error X' u) ->
     nth_error A x = nth_error A' x).
Proof.
  unfold SAGEConv_forward, Dropout_forward.
  destruct (training layer).
  - pose proof (dropout_matrix_rows (feat_drop layer) X s) as R1.
    pose proof (dropout_matrix_rows (feat_drop layer) X' s) as R1'.
    pose proof (dropout_matrix_local (feat_drop layer) X X' s) as L.
    destruct (dropout_matrix (feat_drop layer) X s) as [h t].
    destruct (dropout_matrix (feat_drop layer) X' s) as [h' t'].
    cbn [fst snd] in *. intros [= HA <-] [= HA' <-].
    assert (Hshape : map (@length R) X = map (@length R) X').
    { rewrite <- R1, <- R1'.
      unfold SAGEConv_apply in HA, HA'.
      destruct (check_shape layer g h) eqn:C; [|discriminate].
      destruct (check_shape layer g h') eqn:C'; [|discriminate].
      rewrite (check_shape_rows _ _ _ C). now rewrite (check_shape_rows _ _ _ C'). }
    destruct (L Hshape) as [Ls Ln]. split; [exact Ls|].
    intros x Hx Hn.
    apply (SAGEConv_apply_local layer g h h' A A' x HA HA'); [now apply Ln|].
    intros u Hu. apply Ln. now apply Hn.
  - intros [= HA <-] [= HA' <-]. split; [reflexivity|].
    intros x Hx Hn. now apply (SAGEConv_apply_local layer g X X' A A' x).
Qed.

(** A stack of [k] layers reads, for the embedding of a node, the
    input rows of the nodes within [k] hops only. *)
Lemma forward_layers_local ls g v :
  forall (X X' A A' : matrix) s s1 s1',
    forward_layers ls g X s = (Ok A, s1) ->
    forward_layers ls g X' s = (Ok A', s1') ->
    (forall u, within g (length ls) v u -> nth_error X u = nth_error X' u) ->
    nth_error A v = nth_error A' v.
Proof.
  induction ls as [|l ls IH]; intros X X' A A' s s1 s1' HA HA' Hagree.
  - cbn in HA, HA'. injection HA as <- _. injection HA' as <- _.
    apply Hagree. reflexivity.
  - cbn [forward_layers] in HA, HA'. unfold Mon.bind in HA, HA'.
    destruct (SAGEConv_forward l g X s) as [[H1|e] t] eqn:E1; [|discriminate].
    destruct (SAGEConv_forward l g X' s) as [[H1'|e] t'] eqn:E1'; [|discriminate].
    destruct (SAGEConv_forward_local l g X X' H1 H1' s t t' E1 E1') as [<- Hloc].
    apply (IH H1 H1' A A' t s1 s1' HA HA').
    intros x Hx. apply Hloc.
    + apply Hagree. now left.
    + intros u Hu. apply Hagree. right. eauto.
Qed.

End ReceptiveField.

(** ** The notebook's model on a chain *)

Lemma dot_ones (x : vector) : dot (repeat 1 (length x)) x = Rsum x.
Proof.
  induction x as [|a x IH]; [reflexivity|].
  cbn [length repeat dot]. rewrite IH, Rsum_cons. lra.
Qed.

Lemma vadd_repeat (a b : R) (d : nat) :
  vadd (repeat a d) (repeat b d) = repeat (a + b) d.
Proof. induction d as [|d IH]; cbn; [reflexivity|]. now rewrite IH. Qed.

Lemma Rsum_repeat (c : R) (d : nat) : Rsum (repeat c d) = INR d * c.
Proof.
  induction d as [|d IH]; [cbn; lra|].
  cbn [repeat]. rewrite Rsum_cons, IH, S_INR. lra.
Qed.

Lemma Linear_forward_ones (i o : nat) (c : R) :
  Linear_forward {| weight := repeat (repeat 1 i) o; bias := repeat 0 o |} (repeat c i)
  = repeat (INR i * c + 0) o.
Proof.
  unfold Linear_forward. cbn [weight bias]. rewrite map_repeat.
  rewrite <- (repeat_length c i) at 1. rewrite dot_ones, Rsum_repeat.
  apply vadd_repeat.
Qed.

Lemma apply_activation_repeat act x o :
  apply_activation act (repeat x o) = repeat (act_fun act x) o.
Proof. destruct act; cbn; [apply map_repeat|reflexivity]. Qed.

(** A node without in-neighbours under the all-ones layer. *)
Lemma probe_node_isolated g i o act (H : matrix) v c :
  in_neighbors g v = [] ->
  nth_error H v = Some (repeat c i) ->
  node_update (probe_layer i o act) g H v
  = Ok (repeat (act_fun act (INR i * (/ (0 + 1) * (0 + c)) + 0)) o).
Proof.
  intros Hn Hv. unfold node_update, neighbor_aggregate, in_degree.
  rewrite Hv, Hn. cbn [index_select rmap rbind length INR].
  unfold combine_self. cbn [aggre_type in_feats fc_neigh activation probe_layer
    reduce_neighbors vsum fold_right].
  unfold vzeros, vscale. rewrite vadd_repeat, map_repeat, Linear_forward_ones.
  now rewrite apply_activation_repeat.
Qed.

(** A node with one in-neighbour under the all-ones layer. *)
Lemma probe_node_one g i o act (H : matrix) v u a b :
  in_neighbors g v = [u] ->
  nth_error H u = Some (repeat a i) ->
  nth_error H v = Some (repeat b i) ->
  node_update (probe_layer i o act) g H v
  = Ok (repeat (act_fun act (INR i * (/ (1 + 1) * (a + 0 + b)) + 0)) o).
Proof.
  intros Hn Hu Hv. unfold node_update, neighbor_aggregate, in_degree.
  rewrite Hv, Hn. unfold index_select. cbn [rmap]. rewrite Hu.
  cbn [rbind length INR].
  unfold combine_self. cbn [aggre_type in_feats fc_neigh activation probe_layer
    reduce_neighbors vsum fold_right].
  unfold vzeros, vscale. rewrite !vadd_repeat, map_repeat, Linear_forward_ones.
  now rewrite apply_activation_repeat.
Qed.

(** One all-ones layer on the chain, on a table whose rows are
    constant. *)
Lemma probe_layer_chain (i o : nat) (act : option (R -> R)) (c0 c1 c2 c3 : R) :
  SAGEConv_apply (probe_layer i o act) chain
    [repeat c0 i; repeat c1 i; repeat c2 i; repeat c3 i]
  = Ok [repeat (act_fun act (INR i * (/ (0 + 1) * (0 + c0)) + 0)) o;
        repeat (act_fun act (INR i * (/ (1 + 1) * (c0 + 0 + c1)) + 0)) o;
        repeat (act_fun act (INR i * (/ (1 + 1) * (c1 + 0 + c2)) + 0)) o;
        repeat (act_fun act (INR i * (/ (1 + 1) * (c2 + 0 + c3)) + 0)) o].
Proof.
  unfold SAGEConv_apply, check_shape.
  cbn [length forallb in_feats probe_layer number_of_nodes chain].
  rewrite !repeat_length, !Nat.eqb_refl. cbn [andb Nat.eqb seq rmap].
  rewrite (probe_node_isolated chain i o act _ 0%nat c0) by reflexivity.
  rewrite (probe_node_one chain i o act _ 1%nat 0%nat c0 c1) by reflexivity.
  rewrite (probe_node_one chain i o act _ 2%nat 1%nat c1 c2) by reflexivity.
  rewrite (probe_node_one chain i o act _ 3%nat 2%nat c2 c3) by reflexivity.
  reflexivity.
Qed.

Lemma probe_model_layers :
  layers probe_model
  = [probe_layer 1 64 (Some Notebook.relu); probe_layer 64 64 (Some Notebook.relu);
     probe_layer 64 1 None].
Proof. reflexivity. Qed.

Lemma relu_nonneg (x : R) : 0 <= x -> Notebook.relu x = x.
Proof. intros H. unfold Notebook.relu. now apply Rmax_right. Qed.

(** On the chain, node 0 is three hops from node 3 and no nearer. *)
Lemma chain_third_hop : within chain 3 3 0 /\ ~ within chain 2 3 0.
Proof.
  split.
  - cbn. right. exists 1%nat. split; [|now left].
    right. exists 2%nat. split; [|now left].
    right. exists 3%nat. split; [reflexivity|now left].
  - cbn. intros [[H|(x & -> & [H|[]])]|(x & [->|(y & -> & [<-|[]])] & Hx)];
      cbn in *; try discriminate; intuition discriminate.
Qed.

(** The notebook's model (64 hidden units, [F.relu], three layers),
    with the weights of the test backend and in evaluation mode, reads
    the third hop: changing the input row of node 0 of the chain
    changes the embedding of node 3. *)
Lemma probe_model_reads_third_hop :
  exists A A',
    fst (GraphSAGEModel_forward (B := test_backend) probe_model chain
           [[1]; [0]; [0]; [0]] 0%nat) = Ok A /\
    fst (GraphSAGEModel_forward (B := test_backend) probe_model chain
           [[0]; [0]; [0]; [0]] 0%nat) = Ok A' /\
    nth_error A 3 <> nth_error A' 3.
Proof.
  unfold GraphSAGEModel_forward.
  rewrite !forward_layers_eval by (rewrite probe_model_layers; repeat constructor).
  rewrite probe_model_layers. cbn [fst apply_layers].
  change [[1]; [0]; [0]; [0]] with [repeat 1 1; repeat 0 1; repeat 0 1; repeat 0 1].
  change [[0]; [0]; [0]; [0]] with [repeat 0 1; repeat 0 1; repeat 0 1; repeat 0 1].
  rewrite !probe_layer_chain. cbn [rbind].
  rewrite !probe_layer_chain. cbn [rbind].
  rewrite !probe_layer_chain.
  eexists. eexists. split; [reflexivity|]. split; [reflexivity|].
  cbn [nth_error repeat act_fun].
  replace (INR 64) with 64 by (rewrite INR_IZR_INZ; reflexivity).
  cbn [INR].
  repeat match goal with
         | |- context [Notebook.relu ?x] => rewrite (relu_nonneg x) by lra
         end.
  intros H. injection H as H. lra.
Qed.

(** ** Depth of the constructed stack *)

Section Depth.
Context `{B : Backend}.

Lemma forward_layers_app ls1 ls2 g :
  forall h s,
    forward_layers (ls1 ++ ls2) g h s
    = (h1 <- forward_layers ls1 g h ;; forward_layers ls2 g h1)%mon s.
Proof.
  induction ls1 as [|l ls1 IH]; intros h s; [reflexivity|].
  cbn [app forward_layers]. unfold Mon.bind in *.
  destruct (SAGEConv_forward l g h s) as [[h'|e] s1]; [apply IH|reflexivity].
Qed.

Lemma forward_layers_single l g h s :
  forward_layers [l] g h s = SAGEConv_forward l g h s.
Proof.
  cbn [forward_layers]. unfold Mon.bind, Mon.ret.
  now destruct (SAGEConv_forward l g h s) as [[h'|e] s1].
Qed.

(** The forward pass of a stack in three parts: its first layer, the
    layers in between, its last layer. *)
Lemma forward_layers_in_hid_out l_in l_hid l_out g X s :
  forward_layers (l_in :: l_hid ++ [l_out]) g X s
  = (h1 <- SAGEConv_forward l_in g X ;;
     h2 <- forward_layers l_hid g h1 ;;
     SAGEConv_forward l_out g h2)%mon s.
Proof.
  cbn [forward_layers]. unfold Mon.bind.
  destruct (SAGEConv_forward l_in g X s) as [[h1|e] s1]; [|reflexivity].
  rewrite forward_layers_app. unfold Mon.bind.
  destruct (forward_layers l_hid g h1 s1) as [[h2|e] s2]; [|reflexivity].
  apply forward_layers_single.
Qed.

(** C10.  Constructed with a layer count [n_layers >= 1], the stack
    holds [n_layers + 1] Aggregation Layers: the input layer,
    [n_layers - 1] hidden layers and the output layer, and its forward
    pass is the input layer, then the hidden layers, then the output
    layer, each applied to the table the one before returned.  So the
    embedding of a node is determined by the input rows of the nodes
    within [n_layers + 1] hops.  The notebook's model, built with
    [n_layers = 2], has 3 layers, its forward pass is three layer
    applications in a row, and its receptive field is 3 hops and not
    less: with the weights of the test backend it reads, on a chain,
    the input row of a node three hops away that is not within two
    hops. *)
Theorem GraphSAGEModel_init_depth
  (i h o : nat) (n : Z) (act : option (R -> R)) (p : R) (agg : aggregator) (s : rng) :
  (1 <= n)%Z ->
  let m := fst (GraphSAGEModel_init i h o n act p agg s) in
  let nb := fst (Notebook.gconv_model i o s) in
  (exists l_in l_hid l_out,
      layers m = l_in :: l_hid ++ [l_out] /\
      Z.of_nat (length l_hid) = (n - 1)%Z /\
      forall g X s0,
        GraphSAGEModel_forward m g X s0
        = (h1 <- SAGEConv_forward l_in g X ;;
           h2 <- forward_layers l_hid g h1 ;;
           SAGEConv_forward l_out g h2)%mon s0) /\
  Z.of_nat (length (layers m)) = (n + 1)%Z /\
  (forall g (X X' A A' : matrix) s0 s1 s1' v,
      GraphSAGEModel_forward m g X s0 = (Ok A, s1) ->
      GraphSAGEModel_forward m g X' s0 = (Ok A', s1') ->
      (forall u, within g (Z.to_nat (n + 1)) v u -> nth_error X u = nth_error X' u) ->
      nth_error A v = nth_error A' v) /\
  length (layers nb) = 3%nat /\
  (exists l1 l2 l3,
      layers nb = [l1; l2; l3] /\
      forall g X s0,
        GraphSAGEModel_forward nb g X s0
        = (h1 <- SAGEConv_forward l1 g X ;;
           h2 <- SAGEConv_forward l2 g h1 ;;
           SAGEConv_forward l3 g h2)%mon s0) /\
  (within chain 3 3 0 /\ ~ within chain 2 3 0 /\
   exists A A',
     fst (GraphSAGEModel_forward (B := test_backend) probe_model chain
            [[1]; [0]; [0]; [0]] 0%nat) = Ok A /\
     fst (GraphSAGEModel_forward (B := test_backend) probe_model chain
            [[0]; [0]; [0]; [0]] 0%nat) = Ok A' /\
     nth_error A 3 <> nth_error A' 3).
Proof.
  intros Hn. cbv zeta.
  destruct (GraphSAGEModel_init_length i h o n act p agg s Hn)
    as (l_in & l_hid & l_out & E & Hhid & Hlen).
  split.
  { exists l_in, l_hid, l_out. split; [exact E|]. split; [exact Hhid|].
    intros g X s0. unfold GraphSAGEModel_forward. rewrite E.
    apply forward_layers_in_hid_out. }
  split; [exact Hlen|]. split.
  { intros g X X' A A' s0 s1 s1' v HA HA' Hagree.
    apply (forward_layers_local _ g v X X' A A' s0 s1 s1' HA HA').
    intros u Hu. apply Hagree.
    replace (Z.to_nat (n + 1)) with
      (length (layers (fst (GraphSAGEModel_init i h o n act p agg s)))) by lia.
    exact Hu. }
  unfold Notebook.gconv_model.
  destruct (GraphSAGEModel_init_length i Notebook.n_hidden o Notebook.n_layers
              (Some Notebook.relu) Notebook.dropout Notebook.aggregator_type s)
    as (l1 & l_mid & l3 & E' & Hmid & H3); [unfold Notebook.n_layers; lia|].
  change (Notebook.n_layers + 1)%Z with 3%Z in H3.
  change (Notebook.n_layers - 1)%Z with 1%Z in Hmid.
  split; [lia|]. split.
  { destruct l_mid as [|l2 [|l2' l_mid]]; cbn [length] in Hmid; try lia.
    exists l1, l2, l3. split; [exact E'|].
    intros g X s0. unfold GraphSAGEModel_forward. rewrite E'.
    cbn [app forward_layers]. unfold Mon.bind, Mon.ret.
    destruct (SAGEConv_forward l1 g X s0) as [[h1|e] s1]; [|reflexivity].
    destruct (SAGEConv_forward l2 g h1 s1) as [[h2|e] s2]; [|reflexivity].
    now destruct (SAGEConv_forward l3 g h2 s2) as [[h3|e] s3]. }
  destruct chain_third_hop as [Hin Hout].
  split; [exact Hin|]. split; [exact Hout|]. exact probe_model_reads_third_hop.
Qed.

End Depth.

Lemma GraphSAGEModel_init_depth_witness :
  Z.of_nat (length (layers (fst (GraphSAGEModel_init (B := test_backend)
                                   1 1 2 2 None (1 / 2) agg_gcn 0%nat)))) = 3%Z.
Proof.
  destruct (GraphSAGEModel_init_depth (B := test_backend)
              1 1 2 2 None (1 / 2) agg_gcn 0%nat ltac:(lia)) as (_ & H & _).
  exact H.
Defined.

(** The third hop is really read: on the chain, changing the input
    row of node 0 changes what a stack built with a layer count of 2
    computes for node 3. *)
Example third_hop_is_read :
  let m := GraphSAGEModel_set_training false
             (fst (GraphSAGEModel_init (B := test_backend)
                     1 1 1 2 None (1 / 2) agg_gcn 0%nat)) in
  within chain 3 3 0 /\
  ~ within chain 2 3 0 /\
  option_map (fun A => nth_error A 3)
    (match fst (GraphSAGEModel_forward (B := test_backend) m chain
                  [[1]; [0]; [0]; [0]] 0%nat) with Ok A => Some A | Raise _ => None end)
  <>
  option_map (fun A => nth_error A 3)
    (match fst (GraphSAGEModel_forward (B := test_backend) m chain
                  [[0]; [0]; [0]; [0]] 0%nat) with Ok A => Some A | Raise _ => None end).
Proof.
  cbv zeta. split; [|split].
  - cbn. right. exists 1%nat. split; [|now left].
    right. exists 2%nat. split; [|now left].
    right. exists 3%nat. split; [reflexivity|now left].
  - cbn. intros [[H|(x & -> & [H|[]])]|(x & [->|(y & -> & [<-|[]])] & Hx)];
      cbn in *; try discriminate; intuition discriminate.
  - rewrite !GraphSAGEModel_forward_eval. run_model.
    intros H. injection H as H. lra.
Qed.

(** ** Activation and dropout of the output layer *)

Section FinalLayer.
Context `{B : Backend}.

(** C2, as the code has it.  In every constructed stack the output
    layer has no nonlinearity, while the layers before it carry the
    activation given to the constructor.  Dropout is another matter:
    the output layer is built with [feat_drop=dropout] like every
    other layer, and as the stack comes out of the constructor in
    training mode, each layer, the output layer included, masks its
    input features before aggregating. *)
Theorem GraphSAGEModel_init_final_layer
  (i h o : nat) (n : Z) (act : option (R -> R)) (p : R) (agg : aggregator) (s : rng) :
  exists front l_out,
    layers (fst (GraphSAGEModel_init i h o n act p agg s)) = front ++ [l_out] /\
    activation l_out = None /\
    Forall (fun l => activation l = act) front /\
    Forall (fun l => feat_drop l = p /\ training l = true) (front ++ [l_out]) /\
    Forall (fun l => forall g feat s0,
              SAGEConv_forward l g feat s0 =
              (SAGEConv_apply l g (fst (dropout_matrix p feat s0)),
               snd (dropout_matrix p feat s0)))
           (front ++ [l_out]).
Proof.
  destruct (GraphSAGEModel_init_layers i h o n act p agg s)
    as (l_in & l_hid & l_out & -> & Hin & Hlen & Hhid & Hout).
  exists (l_in :: l_hid), l_out.
  assert (Hall : Forall (fun l => feat_drop l = p /\ training l = true)
                        ((l_in :: l_hid) ++ [l_out])).
  { apply Forall_app. split; [constructor|constructor; [|constructor]]; try tauto.
    eapply Forall_impl; [|exact Hhid]. cbn. tauto. }
  split; [reflexivity|]. split; [tauto|]. split; [|split; [exact Hall|]].
  - constructor; [tauto|]. eapply Forall_impl; [|exact Hhid]. cbn. tauto.
  - eapply Forall_impl; [|exact Hall]. cbn. intros l [Hp Ht] g feat s0.
    unfold SAGEConv_forward, Dropout_forward. rewrite Hp, Ht.
    now destruct (dropout_matrix p feat s0).
Qed.

End FinalLayer.

(** C2 as the specification words it fails: the output layer of the toy stack
    (the second of its two layers) has a dropout probability of one
    half, not zero, and in training mode its result on a table differs
    from what the layer computes from the unmasked table. *)
Lemma final_layer_dropout_counterexample :
  exists l_in l_out,
    layers toy_model = [l_in; l_out] /\
    feat_drop l_out = 1 / 2 /\
    feat_drop l_out <> 0 /\
    fst (SAGEConv_forward (B := test_backend) l_out two_nodes [[1]; [2]] 1%nat)
      <> SAGEConv_apply l_out two_nodes [[1]; [2]].
Proof.
  eexists. eexists. split; [reflexivity|]. split; [reflexivity|]. split.
  - cbn. lra.
  - run_model. intros H. injection H as H. lra.
Qed.

Lemma NodeClassification_forward_loss_witness :
  NodeClassification_forward (B := test_backend)
    (NodeClassification_init (GraphSAGEModel_set_training false toy_model) 1 2)
    toy_labels two_nodes toy_features [0; 1]%nat 0%nat =
  (Ok (Rsum (map (fun i => - nth (Z.to_nat (nth i toy_labels 0%Z)) (nth i toy_scores []) 0
                           + ln (Rsum (map exp (nth i toy_scores [])))) [0; 1]%nat)
       / INR 2), 0%nat).
Proof.
  apply (NodeClassification_forward_loss (B := test_backend)
           (GraphSAGEModel_set_training false toy_model) 1 2 toy_labels
           two_nodes toy_features [0; 1]%nat 0%nat 0%nat toy_scores).
  - apply toy_forward_eval.
  - discriminate.
  - intros i [<-|[<-|[]]]; cbn; lia.
Defined.

(** On the toy stack, where both classes tie, the loss is [ln 2]. *)
Example toy_loss :
  fst (NodeClassification_forward (B := test_backend)
         (NodeClassification_init (GraphSAGEModel_set_training false toy_model) 1 2)
         toy_labels two_nodes toy_features [0; 1]%nat 0%nat) = Ok (ln 2).
Proof.
  unfold NodeClassification_forward, Mon.bind, Mon.lift.
  cbn [gconv_model loss_fcn NodeClassification_init].
  rewrite toy_forward_eval. cbn [fst].
  unfold toy_scores, toy_labels, CrossEntropyLoss. cbn - [log_sum_exp Rdiv INR IZR].
  rewrite log_sum_exp_eq by discriminate. cbn [map Rsum fold_right].
  f_equal.
  replace (exp (3 / 2) + (exp (3 / 2) + 0)) with (exp (3 / 2) * 2) by lra.
  rewrite ln_mult by (apply exp_pos || lra). rewrite ln_exp.
  change (Pos.to_nat 1) with 1%nat. cbn [INR]. lra.
Qed.

(** * Further properties of the notebook's code *)

(** ** The data split *)

Lemma where_from_in (b : list bool) :
  forall i k, In k (where_from i b) <->
              exists j, k = (i + j)%nat /\ nth_error b j = Some true.
Proof.
  induction b as [|c b IH]; intros i k; cbn [where_from].
  - split; [intros []|]. intros (j & _ & H). now destruct j.
  - assert (Htail : In k (where_from (S i) b) <->
                    exists j, k = (i + S j)%nat /\ nth_error b j = Some true).
    { rewrite IH. split; intros (j & -> & H); exists j; split; auto; lia. }
    destruct c; cbn [In]; rewrite Htail; split.
    + intros [<-|(j & -> & H)]; [exists 0%nat|exists (S j)]; cbn; split; auto; lia.
    + intros ([|j] & -> & H); [left; lia|right; exists j; cbn in H; auto].
    + intros (j & -> & H). exists (S j). now cbn.
    + intros ([|j] & -> & H); cbn in H; [discriminate|eauto].
Qed.

Lemma where_from_sorted (b : list bool) :
  forall i, StronglySorted lt (where_from i b).
Proof.
  induction b as [|c b IH]; intros i; cbn [where_from]; [constructor|].
  destruct c; [|apply IH].
  constructor; [apply IH|].
  apply Forall_forall. intros k Hk. apply where_from_in in Hk.
  destruct Hk as (j & -> & _). lia.
Qed.

Lemma where_from_length (b : list bool) :
  forall i, length (where_from i b) = length (filter (fun c => c) b).
Proof.
  induction b as [|c b IH]; intros i; cbn; [reflexivity|].
  destruct c; cbn; now rewrite IH.
Qed.

(** X1.  [np.where(mask > 0)[0]] yields exactly the positions at which
    the mask is positive: in increasing order (so without repetition),
    all below the length of the mask, and as many as the mask has
    positive entries. *)
Theorem idx_of_mask_spec (mask : list Z) :
  (forall k, In k (idx_of_mask mask) <->
             exists m, nth_error mask k = Some m /\ (0 < m)%Z) /\
  StronglySorted lt (idx_of_mask mask) /\
  (forall k, In k (idx_of_mask mask) -> (k < length mask)%nat) /\
  length (idx_of_mask mask) = length (filter (fun m => (0 <? m)%Z) mask).
Proof.
  unfold idx_of_mask, np_where, mask_positive.
  assert (Hin : forall k, In k (where_from 0 (map (fun m => (0 <? m)%Z) mask)) <->
                          exists m, nth_error mask k = Some m /\ (0 < m)%Z).
  { intros k. rewrite where_from_in. split.
    - intros (j & -> & H). cbn. rewrite nth_error_map in H.
      destruct (nth_error mask j) as [m|]; [|discriminate].
      injection H as H. exists m. split; [reflexivity|]. now apply Z.ltb_lt.
    - intros (m & H & Hm). exists k. split; [reflexivity|].
      rewrite nth_error_map, H. cbn. f_equal. now apply Z.ltb_lt. }
  split; [exact Hin|]. split; [apply where_from_sorted|]. split.
  - intros k Hk. apply Hin in Hk. destruct Hk as (m & H & _).
    apply nth_error_Some. congruence.
  - rewrite where_from_length. clear Hin.
    induction mask as [|m mask IH]; cbn; [reflexivity|].
    destruct (0 <? m)%Z; cbn; now rewrite IH.
Qed.

Lemma select_rows_cons {A} (x : A) (X : list A) (c : bool) (b : list bool) :
  select_rows (x :: X) (c :: b) =
  if c then x :: select_rows X b else select_rows X b.
Proof. unfold select_rows. cbn. now destruct c. Qed.

Lemma index_select_where_from {A} (b : list bool) :
  forall (pre X : list A),
    (length b <= length X)%nat ->
    index_select (pre ++ X) (where_from (length pre) b) = Ok (select_rows X b).
Proof.
  induction b as [|c b IH]; intros pre X Hlen.
  - unfold select_rows. destruct X; reflexivity.
  - destruct X as [|x X]; [cbn in Hlen; lia|].
    cbn in Hlen. cbn [where_from]. rewrite select_rows_cons.
    assert (Htail : index_select (pre ++ x :: X) (where_from (S (length pre)) b)
                    = Ok (select_rows X b)).
    { replace (pre ++ x :: X) with ((pre ++ [x]) ++ X) by now rewrite <- app_assoc.
      replace (S (length pre)) with (length (pre ++ [x]))
        by (rewrite length_app; cbn; lia).
      apply IH. lia. }
    destruct c; [|exact Htail].
    unfold index_select in *. cbn [rmap].
    rewrite nth_error_app2 by lia. rewrite Nat.sub_diag. cbn [nth_error rbind].
    now rewrite Htail.
Qed.

(** X2.  Indexing a table by the positions taken from a mask that is
    no longer than the table never runs out of range: it returns the
    rows the mask marks as positive, in the order of the table. *)
Theorem index_select_idx_of_mask {A} (X : list A) (mask : list Z) :
  (length mask <= length X)%nat ->
  index_select X (idx_of_mask mask) = Ok (select_rows X (mask_positive mask)).
Proof.
  intros Hlen. unfold idx_of_mask, np_where.
  apply (index_select_where_from (mask_positive mask) [] X).
  unfold mask_positive. now rewrite length_map.
Qed.

Lemma index_select_idx_of_mask_witness :
  index_select [10; 20; 30; 40]%Z (idx_of_mask [0; 1; 0; 1]%Z) = Ok [20; 40]%Z.
Proof.
  apply (index_select_idx_of_mask [10; 20; 30; 40]%Z [0; 1; 0; 1]%Z).
  cbn. lia.
Defined.

(** ** Range of the accuracy and of the loss *)

Lemma count_equal_le (indices : list nat) (test_labels : list Z) :
  (count_equal indices test_labels <= length test_labels)%nat.
Proof.
  unfold count_equal.
  pose proof (filter_length_le (fun p : nat * Z => Z.eqb (Z.of_nat (fst p)) (snd p))
                (combine indices test_labels)) as H.
  rewrite length_combine in H. lia.
Qed.

Lemma accuracy_range (self : NodeClassification) g X labels idx a :
  accuracy self g X labels idx = Ok a -> 0 <= a <= 1.
Proof.
  unfold accuracy.
  destruct (apply_layers _ g X) as [logits|e]; cbn [rbind]; [|discriminate].
  destruct (index_select logits idx) as [lg|e]; cbn [rbind]; [|discriminate].
  destruct (index_select labels idx) as [tl|e]; cbn [rbind]; [|discriminate].
  destruct (torch_max lg) as [vi|e]; cbn [rbind]; [|discriminate].
  pose proof (count_equal_le (snd vi) tl) as Hc.
  destruct (length tl) as [|n] eqn:En; cbn [py_div]; [discriminate|].
  intros [= <-].
  pose proof (lt_0_INR (S n) ltac:(lia)) as Hn.
  pose proof (le_INR _ _ Hc) as Hle.
  pose proof (pos_INR (count_equal (snd vi) tl)) as H0.
  rewrite Rmult_1_r. split.
  - apply Rmult_le_pos; [exact H0|]. left. now apply Rinv_0_lt_compat.
  - apply (Rmult_le_reg_r (INR (S n))); [exact Hn|].
    unfold Rdiv. rewrite Rmult_assoc, Rinv_l by lra. lra.
Qed.

Section Ranges.
Context `{B : Backend}.

(** X3.  Whenever [NCEvaluate] returns, what it returns is a
    fraction: a number between 0 and 1. *)
Theorem NCEvaluate_range
  (g : DGLGraph) (X : matrix) (labels : list Z) (idx : list nat) (w : world) (a : R) :
  fst (NCEvaluate g X labels idx w) = Ok a -> 0 <= a <= 1.
Proof.
  rewrite NCEvaluate_run. cbn [fst]. apply accuracy_range.
Qed.

End Ranges.

Lemma NCEvaluate_range_witness :
  fst (NCEvaluate two_nodes toy_features toy_labels [0; 1]%nat toy_world) = Ok (1 / 2) /\
  0 <= 1 / 2 <= 1.
Proof.
  assert (E : fst (NCEvaluate two_nodes toy_features toy_labels [0; 1]%nat toy_world)
              = Ok (1 / 2)) by apply toy_accuracy_on_ties.
  split; [exact E|].
  exact (NCEvaluate_range (B := test_backend) two_nodes toy_features toy_labels
           [0; 1]%nat toy_world (1 / 2) E).
Defined.

Lemma rmap_Forall {A C} (f : A -> result C) (P : C -> Prop) (xs : list A) (ys : list C) :
  (forall x y, In x xs -> f x = Ok y -> P y) ->
  rmap f xs = Ok ys -> Forall P ys.
Proof.
  revert ys. induction xs as [|x xs IH]; intros ys Hf; cbn.
  - intros [= <-]. constructor.
  - destruct (f x) as [y|e] eqn:Ey; cbn; [|discriminate].
    destruct (rmap f xs) as [zs|e] eqn:Ez; cbn; [|discriminate].
    intros [= <-]. constructor.
    + apply (Hf x y); [now left|exact Ey].
    + apply IH; [|reflexivity]. intros x' y' Hx'. apply Hf. now right.
Qed.

Lemma Rsum_exp_ge (x : vector) (k : nat) :
  (k < length x)%nat -> exp (nth k x 0) <= Rsum (map exp x).
Proof.
  revert k. induction x as [|a x IH]; intros k Hk; [cbn in Hk; lia|].
  cbn [map]. rewrite Rsum_cons. destruct k as [|k]; cbn [nth].
  - pose proof (Rsum_exp_nonneg x). lra.
  - cbn in Hk. specialize (IH k ltac:(lia)). pose proof (exp_pos a). lra.
Qed.

Lemma cross_entropy_row_nonneg (x : vector) (t : Z) (y : R) :
  cross_entropy_row x t = Ok y -> 0 <= y.
Proof.
  unfold cross_entropy_row.
  destruct ((0 <=? t)%Z && (t <? Z.of_nat (length x))%Z)%bool eqn:E; [|discriminate].
  apply andb_prop in E. destruct E as [E1 E2].
  apply Z.leb_le in E1. apply Z.ltb_lt in E2.
  intros [= <-].
  assert (Hx : x <> []) by (destruct x; [cbn in E2; lia|congruence]).
  rewrite log_sum_exp_eq by exact Hx.
  pose proof (Rsum_exp_ge x (Z.to_nat t) ltac:(lia)) as Hge.
  pose proof (exp_pos (nth (Z.to_nat t) x 0)) as Hpos.
  assert (Hln : nth (Z.to_nat t) x 0 <= ln (Rsum (map exp x))).
  { rewrite <- (ln_exp (nth (Z.to_nat t) x 0)) at 1.
    destruct Hge as [Hlt|Heq].
    - left. now apply ln_increasing.
    - right. now rewrite Heq. }
  lra.
Qed.

Lemma Rsum_nonneg (x : vector) : Forall (fun y => 0 <= y) x -> 0 <= Rsum x.
Proof.
  induction 1 as [|y x Hy _ IH]; [cbn; lra|]. rewrite Rsum_cons. lra.
Qed.

Lemma CrossEntropyLoss_nonneg (input : matrix) (target : list Z) (l : R) :
  input <> [] ->
  CrossEntropyLoss input target = Ok l -> 0 <= l.
Proof.
  intros Hne. unfold CrossEntropyLoss.
  destruct (Nat.eqb (length input) (length target)) eqn:Elen; [|discriminate].
  apply Nat.eqb_eq in Elen.
  destruct (rmap _ (combine input target)) as [losses|e] eqn:E; cbn [rbind];
    [|discriminate].
  intros [= <-].
  assert (Hall : Forall (fun y => 0 <= y) losses).
  { apply (rmap_Forall _ _ _ _ (fun p y _ H => cross_entropy_row_nonneg _ _ _ H) E). }
  pose proof (Rsum_nonneg _ Hall) as Hs.
  assert (Hpos : (0 < length losses)%nat).
  { rewrite (rmap_length _ _ _ E), length_combine, <- Elen, Nat.min_id.
    destruct input; [congruence|cbn; lia]. }
  apply Rmult_le_pos; [exact Hs|]. left. apply Rinv_0_lt_compat.
  now apply lt_0_INR.
Qed.

Section LossRange.
Context `{B : Backend}.

(** X4.  Whenever the classification head returns a loss for a subset
    with at least one node, the loss is not negative. *)
Theorem NodeClassification_forward_nonneg
  (m : GraphSAGEModel) (n_hidden n_classes : nat) (labels : list Z)
  (g : DGLGraph) (X : matrix) (S : list nat) (s s' : rng) (l : R) :
  S <> [] ->
  NodeClassification_forward (NodeClassification_init m n_hidden n_classes)
    labels g X S s = (Ok l, s') ->
  0 <= l.
Proof.
  intros HS.
  unfold NodeClassification_forward, Mon.bind, Mon.lift.
  cbn [gconv_model loss_fcn NodeClassification_init].
  destruct (GraphSAGEModel_forward m g X s) as [[score|e] s1]; [|discriminate].
  destruct (index_select score S) as [input|e] eqn:Ein; cbn [rbind]; [|discriminate].
  destruct (index_select labels S) as [target|e]; cbn [rbind]; [|discriminate].
  intros [= H _]. apply (CrossEntropyLoss_nonneg input target l); [|exact H].
  apply index_select_length in Ein. destruct input; [|congruence].
  destruct S; [congruence|discriminate].
Qed.

End LossRange.

Lemma toy_loss_run :
  NodeClassification_forward (B := test_backend)
    (NodeClassification_init (GraphSAGEModel_set_training false toy_model) 1 2)
    toy_labels two_nodes toy_features [0; 1]%nat 0%nat = (Ok (ln 2), 0%nat).
Proof.
  pose proof toy_loss as E.
  destruct (NodeClassification_forward _ _ _ _ _ _) as [r s1] eqn:Er in E |- *.
  cbn [fst] in E. subst r. f_equal.
  pose proof (f_equal snd Er) as Es. cbn [snd] in Es. rewrite <- Es.
  unfold NodeClassification_forward, Mon.bind, Mon.lift.
  cbn [gconv_model loss_fcn NodeClassification_init].
  now rewrite toy_forward_eval.
Qed.

Lemma NodeClassification_forward_nonneg_witness :
  NodeClassification_forward (B := test_backend)
    (NodeClassification_init (GraphSAGEModel_set_training false toy_model) 1 2)
    toy_labels two_nodes toy_features [0; 1]%nat 0%nat = (Ok (ln 2), 0%nat) /\
  0 <= ln 2.
Proof.
  split; [exact toy_loss_run|].
  apply (NodeClassification_forward_nonneg (B := test_backend)
           (GraphSAGEModel_set_training false toy_model) 1 2 toy_labels
           two_nodes toy_features [0; 1]%nat 0%nat 0%nat (ln 2)).
  - discriminate.
  - exact toy_loss_run.
Defined.

(** ** What the Evaluator does to the state *)

Section EvaluateEffect.
Context `{B : Backend}.

(** X5.  Whether it returns or raises, [NCEvaluate] leaves the module
    in evaluation mode (every layer is the layer it was, with its
    training flag off; the flag is not restored) and touches nothing
    else: gradients, optimizer, random state and console are as
    before. *)
Theorem NCEvaluate_effect
  (g : DGLGraph) (X : matrix) (labels : list Z) (idx : list nat) (w : world) :
  let w' := snd (NCEvaluate g X labels idx w) in
  layers (gconv_model (model w')) =
    map (set_training false) (layers (gconv_model (model w))) /\
  Forall (fun l => training l = false) (layers (gconv_model (model w'))) /\
  grad w' = grad w /\
  optimizer w' = optimizer w /\
  random w' = random w /\
  stdout w' = stdout w.
Proof.
  cbv zeta. rewrite NCEvaluate_run. cbn [snd after_evaluate model grad optimizer
    random stdout set_mode gconv_model GraphSAGEModel_set_training layers].
  split; [reflexivity|]. split; [apply set_training_all|]. auto.
Qed.

(** X9.  When the last cell runs to its end, the module is left in
    evaluation mode: the final test accuracy is the last thing to
    switch the mode. *)
Theorem training_loop_ends_in_eval_mode
  (g : DGLGraph) (X : matrix) (labels : list Z)
  (train_idx val_idx test_idx : list nat) (n_epochs : Z) (w : world) :
  let run := training_loop g X labels train_idx val_idx test_idx n_epochs w in
  is_ok (fst run) = true ->
  Forall (fun l => training l = false) (layers (gconv_model (model (snd run)))).
Proof.
  cbv zeta. unfold training_loop, Mon.bind.
  destruct (Mon.for_each _ _ w) as [[u|e] w1]; [|discriminate].
  cbn [print Mon.modify].
  rewrite NCEvaluate_run.
  destruct (accuracy _ g X labels test_idx) as [a|e]; [|discriminate].
  intros _. cbn. apply set_training_all.
Qed.

(** X12.  With an epoch count of zero or less the loop body never
    runs: the cell trains nothing (parameters and optimizer are as
    before), prints the blank line, and computes the test accuracy
    once, printing it when the computation succeeds. *)
Theorem training_loop_no_epochs
  (g : DGLGraph) (X : matrix) (labels : list Z)
  (train_idx val_idx test_idx : list nat) (n_epochs : Z) (w : world) :
  (n_epochs <= 0)%Z ->
  let run := training_loop g X labels train_idx val_idx test_idx n_epochs w in
  parameters (model (snd run)) = parameters (model w) /\
  optimizer (snd run) = optimizer w /\
  grad (snd run) = grad w /\
  history (snd run) = history w ++ [ev_evaluate test_idx] /\
  stdout (snd run) =
    stdout w ++ line_blank ::
      match accuracy (model w) g X labels test_idx with
      | Ok a => [line_test a]
      | Raise _ => []
      end.
Proof.
  intros Hn. cbv zeta. unfold training_loop, Mon.bind.
  replace (Z.to_nat n_epochs) with 0%nat by lia.
  cbn [seq Mon.for_each Mon.ret print Mon.modify].
  rewrite NCEvaluate_run. cbn [model].
  destruct (accuracy (model w) g X labels test_idx) as [a|e]; cbn;
    rewrite layer_parameters_set_training, <- ?app_assoc; auto.
Qed.

End EvaluateEffect.

Lemma training_loop_ends_in_eval_mode_witness :
  Forall (fun l => training l = false)
    (layers (gconv_model (model (snd (training_loop two_nodes toy_features toy_labels
                                        [0]%nat [1]%nat [0; 1]%nat 2 toy_world))))).
Proof.
  apply (training_loop_ends_in_eval_mode (B := test_backend) two_nodes toy_features
           toy_labels [0]%nat [1]%nat [0; 1]%nat 2 toy_world).
  reflexivity.
Defined.

Lemma training_loop_no_epochs_witness :
  history (snd (training_loop two_nodes toy_features toy_labels
                  [0]%nat [1]%nat [0; 1]%nat 0 toy_world)) = [ev_evaluate [0; 1]%nat].
Proof.
  apply (training_loop_no_epochs (B := test_backend) two_nodes toy_features
           toy_labels [0]%nat [1]%nat [0; 1]%nat 0 toy_world).
  lia.
Defined.

(** ** Edge cases of the constructor *)

Section Shallow.
Context `{B : Backend}.

(** X6.  A layer count of one or less (zero and negative counts
    included) still builds a stack of exactly two layers, the input
    layer from [in_feats] to [n_hidden] and the output layer from
    [n_hidden] to [out_dim]: the constructor never builds a
    shallower stack and never fails on a small count. *)
Theorem GraphSAGEModel_init_shallow
  (i h o : nat) (n : Z) (act : option (R -> R)) (p : R) (agg : aggregator) (s : rng) :
  (n <= 1)%Z ->
  exists l_in l_out,
    layers (fst (GraphSAGEModel_init i h o n act p agg s)) = [l_in; l_out] /\
    in_feats l_in = i /\ out_feats l_in = h /\ activation l_in = act /\
    in_feats l_out = h /\ out_feats l_out = o /\ activation l_out = None.
Proof.
  intros Hn.
  destruct (GraphSAGEModel_init_layers i h o n act p agg s)
    as (l_in & l_hid & l_out & E & Hin & Hlen & _ & Hout).
  replace (Z.to_nat (n - 1)) with 0%nat in Hlen by lia.
  apply length_zero_iff_nil in Hlen. subst l_hid.
  exists l_in, l_out. rewrite E. cbn. tauto.
Qed.

End Shallow.

Lemma GraphSAGEModel_init_shallow_witness :
  length (layers (fst (GraphSAGEModel_init (B := test_backend)
                         3 4 2 (-5) None (1 / 2) agg_gcn 0%nat))) = 2%nat.
Proof.
  destruct (GraphSAGEModel_init_shallow (B := test_backend)
              3 4 2 (-5) None (1 / 2) agg_gcn 0%nat ltac:(lia))
    as (l_in & l_out & E & _).
  rewrite E. reflexivity.
Defined.

(** ** Subsets that leave the table *)

Lemma index_select_raise {A} (X : list A) (idx : list nat) (e : exn) :
  index_select X idx = Raise e -> e = OutOfRange.
Proof.
  unfold index_select. induction idx as [|i idx IH]; cbn; [discriminate|].
  destruct (nth_error X i); cbn.
  - destruct (rmap _ idx); cbn; [discriminate|]. intros [= <-]. now apply IH.
  - now intros [= <-].
Qed.

Lemma index_select_out_of_range {A} (X : list A) (idx : list nat) (i : nat) :
  In i idx -> (length X <= i)%nat -> index_select X idx = Raise OutOfRange.
Proof.
  intros Hi Hlen.
  destruct (index_select X idx) as [ys|e] eqn:E.
  - unfold index_select in E. apply In_nth_error in Hi. destruct Hi as [k Hk].
    destruct (rmap_nth _ _ _ E k i Hk) as (y & Hy & _).
    rewrite (proj2 (nth_error_None X i) Hlen) in Hy. discriminate.
  - now rewrite (index_select_raise X idx e E).
Qed.

Lemma select_both_out_of_range {C} (score : matrix) (labels : list Z)
  (S : list nat) (i : nat) (k : list vector -> list Z -> result C) :
  In i S ->
  (length score <= i)%nat \/ (length labels <= i)%nat ->
  rbind (index_select score S) (fun a => rbind (index_select labels S) (k a))
  = Raise OutOfRange.
Proof.
  intros Hi [H|H].
  - now rewrite (index_select_out_of_range score S i Hi H).
  - destruct (index_select score S) as [a|e] eqn:E; cbn [rbind].
    + now rewrite (index_select_out_of_range labels S i Hi H).
    + now rewrite (index_select_raise score S e E).
Qed.

Section OutOfRange.
Context `{B : Backend}.

(** X11.  A subset that names a node without a row of scores, or
    without a label, makes both the loss computation and the
    evaluation raise the out-of-range error once the forward pass has
    succeeded; neither skips the node, nor returns a value computed
    from the remaining ones. *)
Theorem subset_out_of_range
  (self : NodeClassification) (labels : list Z) (g : DGLGraph) (X : matrix)
  (S : list nat) (i : nat) (s s' : rng) (score score_e : matrix) (w : world) :
  In i S ->
  GraphSAGEModel_forward (gconv_model self) g X s = (Ok score, s') ->
  fst (GraphSAGEModel_forward (GraphSAGEModel_set_training false (gconv_model (model w)))
         g X (random w)) = Ok score_e ->
  ((length score <= i)%nat \/ (length labels <= i)%nat ->
   NodeClassification_forward self labels g X S s = (Raise OutOfRange, s')) /\
  ((length score_e <= i)%nat \/ (length labels <= i)%nat ->
   fst (NCEvaluate g X labels S w) = Raise OutOfRange).
Proof.
  intros Hi Hfwd Heval. split; intros Hout.
  - unfold NodeClassification_forward, Mon.bind, Mon.lift. rewrite Hfwd.
    now rewrite (select_both_out_of_range score labels S i _ Hi Hout).
  - rewrite NCEvaluate_run. cbn [fst]. unfold accuracy.
    rewrite GraphSAGEModel_forward_eval in Heval. cbn [fst] in Heval.
    rewrite Heval. cbn [rbind].
    now rewrite (select_both_out_of_range score_e labels S i _ Hi Hout).
Qed.

End OutOfRange.

Lemma subset_out_of_range_witness :
  NodeClassification_forward (B := test_backend)
    (NodeClassification_init (GraphSAGEModel_set_training false toy_model) 1 2)
    toy_labels two_nodes toy_features [0; 2]%nat 0%nat = (Raise OutOfRange, 0%nat) /\
  fst (NCEvaluate two_nodes toy_features toy_labels [0; 2]%nat toy_world)
    = Raise OutOfRange.
Proof.
  destruct (subset_out_of_range (B := test_backend)
              (NodeClassification_init (GraphSAGEModel_set_training false toy_model) 1 2)
              toy_labels two_nodes toy_features [0; 2]%nat 2%nat 0%nat 0%nat
              toy_scores toy_scores toy_world) as [H1 H2].
  - cbn. auto.
  - apply toy_forward_eval.
  - cbn [model toy_world initial_world NodeClassification_init gconv_model random].
    now rewrite toy_forward_eval.
  - split; [apply H1|apply H2]; left; cbn; lia.
Defined.

(** ** What a run prints *)

Section Console.
Context `{B : Backend}.

Lemma prints_after_silent {A C} (m : Mon.M world A) (k : A -> Mon.M world C)
  (Q : list line -> Prop) :
  (forall w, stdout (snd (m w)) = stdout w) ->
  (forall a, prints (k a) Q) ->
  prints (Mon.bind m k) Q.
Proof.
  intros Hm Hk w. unfold Mon.bind. specialize (Hm w).
  destruct (m w) as [[a|e] w1]; cbn [fst snd] in *; [|discriminate].
  intros Hok. destruct (Hk a w1 Hok) as (ls & E & HQ).
  exists ls. now rewrite E, Hm.
Qed.

Lemma prints_print l : prints (print l) (fun ls => ls = [l]).
Proof. intros w _. exists [l]. now cbn. Qed.

Lemma model_call_stdout labels g X idx (w : world) :
  stdout (snd (model_call labels g X idx w)) = stdout w.
Proof.
  unfold model_call, record, with_random, Mon.bind, Mon.modify, Mon.gets, Mon.ret.
  cbn. destruct (NodeClassification_forward _ _ _ _ _ _) as [[v|e] s]; reflexivity.
Qed.

Lemma optimizer_step_stdout (w : world) :
  stdout (snd (optimizer_step w)) = stdout w.
Proof.
  unfold optimizer_step, record, Mon.bind, Mon.modify. cbn.
  destruct (grad w); [|reflexivity]. now destruct (Adam_step _ _ _).
Qed.

Lemma prints_epoch_body g X labels train_idx val_idx epoch :
  prints (epoch_body g X labels train_idx val_idx epoch)
         (fun ls => exists l a, ls = [line_epoch epoch l a]).
Proof.
  unfold epoch_body.
  apply prints_after_silent; [reflexivity|]. intros _.
  apply prints_after_silent; [apply model_call_stdout|]. intros loss.
  apply prints_after_silent; [reflexivity|]. intros _.
  apply prints_after_silent; [reflexivity|]. intros _.
  apply prints_after_silent; [apply optimizer_step_stdout|]. intros _.
  apply prints_after_silent; [intros w; now rewrite NCEvaluate_run|]. intros acc.
  intros w Hok. destruct (prints_print (line_epoch epoch (item loss) acc) w Hok)
    as (ls & E & ->). eauto.
Qed.

Lemma prints_epochs g X labels train_idx val_idx (len : nat) :
  forall start,
    prints (Mon.for_each (seq start len) (epoch_body g X labels train_idx val_idx))
           (fun ls => exists vals, length vals = len /\ ls = epoch_lines start vals).
Proof.
  induction len as [|len IH]; intros start w Hok; cbn [seq Mon.for_each] in *.
  - exists []. cbn. split; [now rewrite app_nil_r|]. now exists [].
  - unfold Mon.bind in *.
    pose proof (prints_epoch_body g X labels train_idx val_idx start w) as Hb.
    destruct (epoch_body g X labels train_idx val_idx start w) as [[u|e] w1];
      cbn [fst snd] in *; [|discriminate].
    destruct (Hb eq_refl) as (ls1 & E1 & l & a & ->).
    destruct (IH (S start) w1 Hok) as (ls2 & E2 & vals & Hlen & ->).
    exists (line_epoch start l a :: epoch_lines (S start) vals). split.
    + rewrite E2, E1, <- app_assoc. reflexivity.
    + exists ((l, a) :: vals). cbn. now rewrite Hlen.
Qed.

(** X7.  A run of the last cell that reaches its end has printed one
    line per epoch, numbered 0 to [n_epochs - 1] in this order, then
    the blank line, then the test accuracy; and the accuracy it
    reports is that of the module as the cell leaves it. *)
Theorem training_loop_stdout
  (g : DGLGraph) (X : matrix) (labels : list Z)
  (train_idx val_idx test_idx : list nat) (n_epochs : Z) (w : world) :
  let run := training_loop g X labels train_idx val_idx test_idx n_epochs w in
  is_ok (fst run) = true ->
  exists vals acc,
    length vals = Z.to_nat n_epochs /\
    stdout (snd run) = stdout w ++ epoch_lines 0 vals ++ [line_blank; line_test acc] /\
    accuracy (model (snd run)) g X labels test_idx = Ok acc.
Proof.
  cbv zeta. unfold training_loop, Mon.bind.
  pose proof (prints_epochs g X labels train_idx val_idx (Z.to_nat n_epochs) 0%nat w)
    as Hloop.
  destruct (Mon.for_each _ _ w) as [[u|e] w1]; cbn [fst snd] in Hloop; [|discriminate].
  destruct (Hloop eq_refl) as (ls & E & vals & Hlen & ->).
  cbn [print Mon.modify]. rewrite NCEvaluate_run.
  destruct (accuracy _ g X labels test_idx) as [a|e] eqn:Ea; [|discriminate].
  intros _. exists vals, a. split; [exact Hlen|]. cbn in Ea |- *. split.
  - rewrite E, <- !app_assoc. reflexivity.
  - change (accuracy (set_mode false (model w1)) g X labels test_idx = Ok a).
    rewrite accuracy_set_mode. exact Ea.
Qed.

End Console.

Lemma training_loop_stdout_witness :
  exists vals acc,
    length vals = 2%nat /\
    stdout (snd (training_loop two_nodes toy_features toy_labels
                   [0]%nat [1]%nat [0; 1]%nat 2 toy_world)) =
      stdout toy_world ++ epoch_lines 0 vals ++ [line_blank; line_test acc] /\
    accuracy (model (snd (training_loop two_nodes toy_features toy_labels
                            [0]%nat [1]%nat [0; 1]%nat 2 toy_world)))
      two_nodes toy_features toy_labels [0; 1]%nat = Ok acc.
Proof.
  apply (training_loop_stdout (B := test_backend) two_nodes toy_features
           toy_labels [0]%nat [1]%nat [0; 1]%nat 2 toy_world).
  reflexivity.
Defined.

(** ** Gradients and the optimizer step *)

Lemma vadd_zeros_l (x : vector) (n : nat) :
  n = length x -> vadd (vzeros n) x = x.
Proof.
  intros ->. induction x as [|a x IH]; [reflexivity|].
  cbn. fold (vzeros (length x)). rewrite IH. f_equal. lra.
Qed.

Lemma weight_add_zeros (wa wb : matrix) :
  map (@length R) wa = map (@length R) wb ->
  map (fun p => vadd (fst p) (snd p))
      (combine (map (fun row => vzeros (length row)) wa) wb) = wb.
Proof.
  revert wb. induction wa as [|ra wa IH]; intros [|rb wb] H; cbn in *;
    try discriminate; [reflexivity|].
  injection H as Hr Hw. rewrite (vadd_zeros_l rb (length ra) Hr).
  now rewrite IH.
Qed.

Lemma Linear_add_zero (a b : Linear) :
  Linear_shape a = Linear_shape b -> Linear_add (Linear_zero a) b = b.
Proof.
  unfold Linear_shape, Linear_add, Linear_zero. destruct a as [wa ba], b as [wb bb].
  cbn [weight bias]. intros [= Hw Hb]. rewrite (weight_add_zeros wa wb Hw).
  now rewrite (vadd_zeros_l bb (length ba) Hb).
Qed.

Lemma grads_add_zero (old new : list Linear) :
  map Linear_shape old = map Linear_shape new ->
  map (fun p => Linear_add (fst p) (snd p)) (combine (map Linear_zero old) new) = new.
Proof.
  revert new. induction old as [|a old IH]; intros [|b new] H; cbn in *;
    try discriminate; [reflexivity|].
  injection H as Ha Hold. cbn in Ha.
  rewrite (Linear_add_zero a b) by (unfold Linear_shape; now rewrite Ha, Hold).
  now rewrite IH.
Qed.

Lemma layer_parameters_length (l : SAGEConv) :
  length (layer_parameters l) = match fc_self l with Some _ => 2%nat | None => 1%nat end.
Proof. unfold layer_parameters. now destruct (fc_self l). Qed.

Lemma load_layers_parameters (ls : list SAGEConv) :
  forall ps,
    length ps = length (flat_map layer_parameters ls) ->
    flat_map layer_parameters (load_layers ls ps) = ps.
Proof.
  induction ls as [|l ls IH]; intros ps Hlen.
  - cbn in *. now apply length_zero_iff_nil in Hlen.
  - cbn [flat_map] in Hlen. rewrite length_app, layer_parameters_length in Hlen.
    cbn [load_layers]. unfold load_layer.
    destruct (fc_self l) as [fc|].
    + destruct ps as [|a [|b rest]]; cbn [length] in Hlen; try lia.
      cbn [flat_map]. unfold layer_parameters at 1. cbn [fc_self fc_neigh app].
      f_equal. f_equal. apply IH. lia.
    + destruct ps as [|a rest]; cbn [length] in Hlen; try lia.
      cbn [flat_map]. unfold layer_parameters at 1. cbn [fc_self fc_neigh app].
      f_equal. apply IH. lia.
Qed.

Lemma load_layers_config (ls : list SAGEConv) :
  forall ps, map layer_config (load_layers ls ps) = map layer_config ls.
Proof.
  induction ls as [|l ls IH]; intros ps; cbn; [reflexivity|].
  unfold load_layer.
  destruct (fc_self l) as [fc|]; [destruct ps as [|a [|b rest]]|destruct ps as [|a rest]];
    cbn; now rewrite IH.
Qed.

Section Gradients.
Context `{B : Backend}.

(** X8.  [optimizer.zero_grad()] followed by [loss.backward()] leaves
    in the gradient fields exactly the gradients of that loss: whether
    there were gradients before or none, nothing of an earlier backward
    pass is carried over (the earlier gradients having the shape of
    the new ones). *)
Theorem backward_after_zero_grad (loss : loss_tensor) (w : world) :
  (forall old, grad w = Some old ->
               map Linear_shape old = map Linear_shape (grad_fn loss)) ->
  let w' := snd ((optimizer_zero_grad ;;; loss_backward loss)%mon w) in
  grad w' = Some (grad_fn loss) /\
  model w' = model w /\
  optimizer w' = optimizer w.
Proof.
  intros Hshape. cbv zeta.
  unfold optimizer_zero_grad, loss_backward, record, Mon.bind, Mon.modify. cbn.
  destruct (grad w) as [old|]; cbn; [|auto].
  rewrite (grads_add_zero old (grad_fn loss)) by now apply Hshape. auto.
Qed.

(** X10.  [optimizer.step()], when gradients are present, installs in
    the module exactly the tensors the Adam update returns (as many as
    it was given) and stores the optimizer's new state; the layers
    keep their widths, policy, dropout probability, activation and
    mode, and the gradients stay in place. *)
Theorem optimizer_step_installs_update
  (w : world) (gr ps : list Linear) (o : opt_state) :
  grad w = Some gr ->
  Adam_step (optimizer w) (parameters (model w)) gr = (ps, o) ->
  length ps = length (parameters (model w)) ->
  let w' := snd (optimizer_step w) in
  parameters (model w') = ps /\
  optimizer w' = o /\
  map layer_config (layers (gconv_model (model w'))) =
    map layer_config (layers (gconv_model (model w))) /\
  grad w' = Some gr.
Proof.
  intros Hg Hstep Hlen. cbv zeta.
  unfold optimizer_step, record, Mon.bind, Mon.modify. cbn.
  rewrite Hg. cbn [parameters model] in Hstep |- *.
  change (flat_map layer_parameters (layers (gconv_model (model w))))
    with (parameters (model w)).
  rewrite Hstep. cbn.
  split; [apply load_layers_parameters; exact Hlen|].
  split; [reflexivity|]. split; [apply load_layers_config|reflexivity].
Qed.

End Gradients.

Lemma backward_after_zero_grad_witness :
  let loss := {| item := 0; grad_fn := parameters (model toy_world) |} in
  let w := set_grad (Some (parameters (model toy_world))) toy_world in
  grad (snd ((optimizer_zero_grad ;;; loss_backward loss)%mon w)) = Some (grad_fn loss).
Proof.
  cbv zeta.
  apply (backward_after_zero_grad (B := test_backend)
           {| item := 0; grad_fn := parameters (model toy_world) |}
           (set_grad (Some (parameters (model toy_world))) toy_world)).
  intros old [= <-]. reflexivity.
Defined.

Lemma optimizer_step_installs_update_witness :
  let w := set_grad (Some (parameters (model toy_world))) toy_world in
  parameters (model (snd (optimizer_step w))) = parameters (model toy_world) /\
  optimizer (snd (optimizer_step w)) = 1%nat.
Proof.
  cbv zeta.
  destruct (optimizer_step_installs_update (B := test_backend)
              (set_grad (Some (parameters (model toy_world))) toy_world)
              (parameters (model toy_world)) (parameters (model toy_world)) 1%nat
              eq_refl eq_refl eq_refl) as (H1 & H2 & _).
  split; [exact H1|exact H2].
Defined.

(** ** What an epoch reports *)

Section EpochReport.
Context `{B : Backend}.

Lemma model_call_value labels g X idx (w : world) (loss : loss_tensor) :
  fst (model_call labels g X idx w) = Ok loss ->
  NodeClassification_forward (model w) labels g X idx (random w)
  = (Ok (item loss), random (snd (model_call labels g X idx w))).
Proof.
  unfold model_call, record, with_random, Mon.bind, Mon.modify, Mon.gets, Mon.ret.
  cbn. destruct (NodeClassification_forward _ _ _ _ _ _) as [[v|e] s]; cbn;
    [|discriminate].
  now intros [= <-].
Qed.

Lemma train_step_tail (loss : loss_tensor) (w : world) :
  let run := (optimizer_zero_grad ;;; loss_backward loss ;;; optimizer_step)%mon w in
  fst run = Ok tt /\ random (snd run) = random w /\ stdout (snd run) = stdout w.
Proof.
  cbv zeta.
  unfold optimizer_zero_grad, loss_backward, optimizer_step, record,
    Mon.bind, Mon.modify. cbn.
  destruct (Adam_step _ _ _). auto.
Qed.

(** X13.  An epoch that runs to its end reports the loss of the
    module as it entered the epoch, switched to training mode, that
    is, the loss before the optimizer update, under dropout; and the
    accuracy it reports is that of the module as the epoch leaves it,
    after the update.  The random state after the epoch is the one
    the training pass left: validation draws nothing. *)
Theorem epoch_body_reports
  (g : DGLGraph) (X : matrix) (labels : list Z)
  (train_idx val_idx : list nat) (epoch : nat) (w : world) :
  let run := epoch_body g X labels train_idx val_idx epoch w in
  is_ok (fst run) = true ->
  exists loss acc,
    NodeClassification_forward (set_mode true (model w)) labels g X train_idx (random w)
      = (Ok loss, random (snd run)) /\
    accuracy (model (snd run)) g X labels val_idx = Ok acc /\
    stdout (snd run) = stdout w ++ [line_epoch epoch loss acc].
Proof.
  cbv zeta.
  destruct (epoch_body g X labels train_idx val_idx epoch w) as [r wf] eqn:Erun.
  cbn [fst snd]. intros Hok.
  unfold epoch_body, Mon.bind in Erun. cbn [model_train Mon.modify] in Erun.
  set (w0 := set_model (set_mode true (model w)) w) in Erun.
  pose proof (model_call_value labels g X train_idx w0) as Hval.
  pose proof (model_call_stdout labels g X train_idx w0) as Hout.
  destruct (model_call labels g X train_idx w0) as [[loss|e] w1];
    [|injection Erun as <- _; discriminate].
  specialize (Hval loss eq_refl). cbn [fst snd] in Hval, Hout.
  pose proof (train_step_tail loss w1) as Htail. cbv zeta in Htail.
  unfold Mon.bind in Htail.
  destruct (optimizer_zero_grad w1) as [[u1|e] w2]; [|now destruct Htail].
  destruct (loss_backward loss w2) as [[u2|e] w3]; [|now destruct Htail].
  destruct (optimizer_step w3) as [[u3|e] w4]; [|now destruct Htail].
  cbn [fst snd] in Htail. destruct Htail as (_ & Hrand & Hstd).
  rewrite NCEvaluate_run in Erun.
  destruct (accuracy (model w4) g X labels val_idx) as [a|e] eqn:Ea;
    [|injection Erun as <- _; discriminate].
  injection Erun as _ <-.
  exists (item loss), a. cbn [snd random stdout model after_evaluate]. split; [|split].
  - rewrite Hrand. exact Hval.
  - now rewrite accuracy_set_mode.
  - now rewrite Hstd, Hout.
Qed.

End EpochReport.

Lemma epoch_body_reports_witness :
  exists loss acc,
    NodeClassification_forward (B := test_backend)
      (set_mode true (model toy_world)) toy_labels two_nodes toy_features
      [0]%nat (random toy_world)
    = (Ok loss, random (snd (epoch_body two_nodes toy_features toy_labels
                               [0]%nat [1]%nat 0 toy_world))) /\
    accuracy (model (snd (epoch_body two_nodes toy_features toy_labels
                            [0]%nat [1]%nat 0 toy_world)))
      two_nodes toy_features toy_labels [1]%nat = Ok acc /\
    stdout (snd (epoch_body two_nodes toy_features toy_labels
                   [0]%nat [1]%nat 0 toy_world))
    = stdout toy_world ++ [line_epoch 0 loss acc].
Proof.
  apply (epoch_body_reports (B := test_backend) two_nodes toy_features toy_labels
           [0]%nat [1]%nat 0%nat toy_world).
  reflexivity.
Defined.
